(** * Transfer reassembly: libuavcan's [TransferReceiver]

    A shallow embedding of
    [libuavcan/src/transport/transfer_receiver.cpp] and the properties its
    design document states about it.

    The receiver is one mutable object; every method becomes a function
    from the object's fields (and, where the method touches it, the payload
    buffer) to the new fields and the method's result.  Integers are [Z];
    where the source fixes a width (the [uint64_t] timestamps, the
    [uint32_t] interval) the wrap-around is written out. *)

From Stdlib Require Import ZArith List Bool Lia.
Import ListNotations.
Open Scope Z_scope.

(** ** Fixed-width unsigned arithmetic *)

Module U.

Definition wrap (w x : Z) : Z := x mod 2 ^ w.

Definition u32 (x : Z) : Z := wrap 32 x.
Definition u64 (x : Z) : Z := wrap 64 x.

Definition add64 (a b : Z) : Z := u64 (a + b).
Definition sub64 (a b : Z) : Z := u64 (a - b).
Definition mul64 (a b : Z) : Z := u64 (a * b).

(** A value that a [uint64_t] can hold. *)
Definition is_u64 (x : Z) : Prop := 0 <= x < 2 ^ 64.

End U.

(** ** Constants declared outside the translation unit

    [TransferID::BITLEN], [Frame::FRAME_INDEX_MAX], the three interval
    constants and the interface-index sentinel are declared in headers; the
    source only uses them.  They are parameters of the development. *)

Class Config : Type := {
  BITLEN : Z;
  FRAME_INDEX_MAX : Z;
  DEFAULT_TRANSFER_INTERVAL : Z;
  MIN_TRANSFER_INTERVAL : Z;
  MAX_TRANSFER_INTERVAL : Z;
  IFACE_INDEX_NOTSET : Z
}.

(** [static const int CRC_LEN = 2;] *)
Definition CRC_LEN : Z := 2.

(** ** Data *)

Inductive ResultCode : Type :=
| RESULT_NOT_COMPLETE
| RESULT_COMPLETE
| RESULT_SINGLE_FRAME.

Inductive TidRelation : Type :=
| TID_SAME
| TID_REPEAT
| TID_FUTURE.

Definition ResultCode_eqb (a b : ResultCode) : bool :=
  match a, b with
  | RESULT_NOT_COMPLETE, RESULT_NOT_COMPLETE => true
  | RESULT_COMPLETE, RESULT_COMPLETE => true
  | RESULT_SINGLE_FRAME, RESULT_SINGLE_FRAME => true
  | _, _ => false
  end.

Definition TidRelation_eqb (a b : TidRelation) : bool :=
  match a, b with
  | TID_SAME, TID_SAME => true
  | TID_REPEAT, TID_REPEAT => true
  | TID_FUTURE, TID_FUTURE => true
  | _, _ => false
  end.

(** Modelled from the spec: the frame accessor ([RxFrame], declared in a
    header).  One field per accessor the receiver calls: [getIfaceIndex],
    [getTransferID], [getFrameIndex], [isFirstFrame], [isLastFrame],
    [getMonotonicTimestamp], [getUtcTimestamp], and the payload bytes
    ([getPayloadPtr] with [getPayloadLen]). *)
Record RxFrame : Type := {
  getIfaceIndex : Z;
  getTransferID : Z;
  getFrameIndex : Z;
  isFirstFrame : bool;
  isLastFrame : bool;
  getMonotonicTimestamp : Z;
  getUtcTimestamp : Z;
  getPayload : list Z
}.

Definition getPayloadLen (frame : RxFrame) : Z :=
  Z.of_nat (length (getPayload frame)).

(** The receiver's member variables.  Their declarations are in the class
    header; the source shows the timestamps to be [uint64_t] and the interval
    [uint32_t] (the casts and temporaries of [updateTransferTimings] and
    [isTimedOut]), and the arithmetic on those is wrapped accordingly.  The
    frame index and the write cursor only ever count frames and payload
    bytes of one transfer; they are plain integers here. *)
Record TransferReceiver : Type := {
  prev_transfer_ts_monotonic_ : Z;
  this_transfer_ts_monotonic_ : Z;
  first_frame_ts_utc_ : Z;
  transfer_interval_ : Z;
  this_transfer_crc_ : Z;
  buffer_write_pos_ : Z;
  tid_ : Z;
  iface_index_ : Z;
  next_frame_index_ : Z
}.

(** Assignment to one member. *)
Definition set_prev_transfer_ts_monotonic (v : Z) (r : TransferReceiver) :=
  {| prev_transfer_ts_monotonic_ := v;
     this_transfer_ts_monotonic_ := this_transfer_ts_monotonic_ r;
     first_frame_ts_utc_ := first_frame_ts_utc_ r;
     transfer_interval_ := transfer_interval_ r;
     this_transfer_crc_ := this_transfer_crc_ r;
     buffer_write_pos_ := buffer_write_pos_ r;
     tid_ := tid_ r;
     iface_index_ := iface_index_ r;
     next_frame_index_ := next_frame_index_ r |}.

Definition set_this_transfer_ts_monotonic (v : Z) (r : TransferReceiver) :=
  {| prev_transfer_ts_monotonic_ := prev_transfer_ts_monotonic_ r;
     this_transfer_ts_monotonic_ := v;
     first_frame_ts_utc_ := first_frame_ts_utc_ r;
     transfer_interval_ := transfer_interval_ r;
     this_transfer_crc_ := this_transfer_crc_ r;
     buffer_write_pos_ := buffer_write_pos_ r;
     tid_ := tid_ r;
     iface_index_ := iface_index_ r;
     next_frame_index_ := next_frame_index_ r |}.

Definition set_first_frame_ts_utc (v : Z) (r : TransferReceiver) :=
  {| prev_transfer_ts_monotonic_ := prev_transfer_ts_monotonic_ r;
     this_transfer_ts_monotonic_ := this_transfer_ts_monotonic_ r;
     first_frame_ts_utc_ := v;
     transfer_interval_ := transfer_interval_ r;
     this_transfer_crc_ := this_transfer_crc_ r;
     buffer_write_pos_ := buffer_write_pos_ r;
     tid_ := tid_ r;
     iface_index_ := iface_index_ r;
     next_frame_index_ := next_frame_index_ r |}.

Definition set_transfer_interval (v : Z) (r : TransferReceiver) :=
  {| prev_transfer_ts_monotonic_ := prev_transfer_ts_monotonic_ r;
     this_transfer_ts_monotonic_ := this_transfer_ts_monotonic_ r;
     first_frame_ts_utc_ := first_frame_ts_utc_ r;
     transfer_interval_ := v;
     this_transfer_crc_ := this_transfer_crc_ r;
     buffer_write_pos_ := buffer_write_pos_ r;
     tid_ := tid_ r;
     iface_index_ := iface_index_ r;
     next_frame_index_ := next_frame_index_ r |}.

Definition set_this_transfer_crc (v : Z) (r : TransferReceiver) :=
  {| prev_transfer_ts_monotonic_ := prev_transfer_ts_monotonic_ r;
     this_transfer_ts_monotonic_ := this_transfer_ts_monotonic_ r;
     first_frame_ts_utc_ := first_frame_ts_utc_ r;
     transfer_interval_ := transfer_interval_ r;
     this_transfer_crc_ := v;
     buffer_write_pos_ := buffer_write_pos_ r;
     tid_ := tid_ r;
     iface_index_ := iface_index_ r;
     next_frame_index_ := next_frame_index_ r |}.

Definition set_buffer_write_pos (v : Z) (r : TransferReceiver) :=
  {| prev_transfer_ts_monotonic_ := prev_transfer_ts_monotonic_ r;
     this_transfer_ts_monotonic_ := this_transfer_ts_monotonic_ r;
     first_frame_ts_utc_ := first_frame_ts_utc_ r;
     transfer_interval_ := transfer_interval_ r;
     this_transfer_crc_ := this_transfer_crc_ r;
     buffer_write_pos_ := v;
     tid_ := tid_ r;
     iface_index_ := iface_index_ r;
     next_frame_index_ := next_frame_index_ r |}.

Definition set_tid (v : Z) (r : TransferReceiver) :=
  {| prev_transfer_ts_monotonic_ := prev_transfer_ts_monotonic_ r;
     this_transfer_ts_monotonic_ := this_transfer_ts_monotonic_ r;
     first_frame_ts_utc_ := first_frame_ts_utc_ r;
     transfer_interval_ := transfer_interval_ r;
     this_transfer_crc_ := this_transfer_crc_ r;
     buffer_write_pos_ := buffer_write_pos_ r;
     tid_ := v;
     iface_index_ := iface_index_ r;
     next_frame_index_ := next_frame_index_ r |}.

Definition set_iface_index (v : Z) (r : TransferReceiver) :=
  {| prev_transfer_ts_monotonic_ := prev_transfer_ts_monotonic_ r;
     this_transfer_ts_monotonic_ := this_transfer_ts_monotonic_ r;
     first_frame_ts_utc_ := first_frame_ts_utc_ r;
     transfer_interval_ := transfer_interval_ r;
     this_transfer_crc_ := this_transfer_crc_ r;
     buffer_write_pos_ := buffer_write_pos_ r;
     tid_ := tid_ r;
     iface_index_ := v;
     next_frame_index_ := next_frame_index_ r |}.

Definition set_next_frame_index (v : Z) (r : TransferReceiver) :=
  {| prev_transfer_ts_monotonic_ := prev_transfer_ts_monotonic_ r;
     this_transfer_ts_monotonic_ := this_transfer_ts_monotonic_ r;
     first_frame_ts_utc_ := first_frame_ts_utc_ r;
     transfer_interval_ := transfer_interval_ r;
     this_transfer_crc_ := this_transfer_crc_ r;
     buffer_write_pos_ := buffer_write_pos_ r;
     tid_ := tid_ r;
     iface_index_ := iface_index_ r;
     next_frame_index_ := v |}.

(** ** The payload buffer

    [TransferBufferBase] is an abstract class; the receiver only calls its
    [write(offset, data, len)], which reports how many bytes it took.  The
    data pointer and the length travel together as a list of bytes. *)
Class TransferBufferBase (B : Type) : Type := {
  write : B -> Z -> list Z -> Z * B
}.

(** Modelled from the spec: the payload buffer accessor
    ([TransferBufferAccessor], declared in a header).  [access()] returns
    the buffer held for this receiver or none; [create()] tries to allocate
    one and returns none on failure; [remove()] releases any held buffer.
    [tba_held] is the buffer currently held, [tba_pool] what the pool hands
    out on [create()] ([None] when it is exhausted). *)
Record TransferBufferAccessor (B : Type) : Type := {
  tba_held : option B;
  tba_pool : option B
}.

Arguments tba_held {B} _.
Arguments tba_pool {B} _.

Definition tba_access {B} (tba : TransferBufferAccessor B) : option B :=
  tba_held tba.

Definition tba_create {B} (tba : TransferBufferAccessor B)
  : option B * TransferBufferAccessor B :=
  (tba_pool tba, {| tba_held := tba_pool tba; tba_pool := tba_pool tba |}).

Definition tba_remove {B} (tba : TransferBufferAccessor B)
  : TransferBufferAccessor B :=
  {| tba_held := None; tba_pool := tba_pool tba |}.

(** The buffer is written in place through the pointer [access()]
    returned: after a write the accessor holds the written buffer. *)
Definition tba_written {B} (tba : TransferBufferAccessor B) (buf : B)
  : TransferBufferAccessor B :=
  {| tba_held := Some buf; tba_pool := tba_pool tba |}.

(** ** The transfer-ID counter *)

Module TransferID.

(** Modelled from the spec: [TransferID::forwardDistance] (the class is
    declared in a header).  The forward, non-negative, wraparound-aware
    distance from [a] to [b] in the N-bit modular space. *)
Definition forwardDistance `{Config} (a b : Z) : Z :=
  (b - a) mod 2 ^ BITLEN.

(** Modelled from the spec: [TransferID::increment], increment by one with
    wraparound over the N-bit space. *)
Definition increment `{Config} (a : Z) : Z :=
  (a + 1) mod 2 ^ BITLEN.

End TransferID.

(** ** The receiver's methods *)

Section Receiver.

Context {cfg : Config}.

Definition getTidRelation (r : TransferReceiver) (frame : RxFrame)
  : TidRelation :=
  let distance := TransferID.forwardDistance (tid_ r) (getTransferID frame) in
  if distance =? 0 then TID_SAME
  else if distance <? Z.quot (Z.shiftl 1 BITLEN) 2 then TID_FUTURE
  else TID_REPEAT.

(** The condition under which [updateTransferTimings] folds a new sample
    into the interval; [r] is the receiver after the timestamp shift. *)
Definition sample_accepted (prev_prev_ts : Z) (r : TransferReceiver) : bool :=
  negb (prev_prev_ts =? 0) &&
  negb (prev_transfer_ts_monotonic_ r =? 0) &&
  (prev_transfer_ts_monotonic_ r >=? prev_prev_ts).

(** The [assert] on entry is compiled out of release builds and has no
    effect on the state. *)
Definition updateTransferTimings (r : TransferReceiver) : TransferReceiver :=
  let prev_prev_ts := prev_transfer_ts_monotonic_ r in
  let r := set_prev_transfer_ts_monotonic (this_transfer_ts_monotonic_ r) r in
  if sample_accepted prev_prev_ts r then
    let interval := U.sub64 (prev_transfer_ts_monotonic_ r) prev_prev_ts in
    let interval :=
      Z.max (Z.min interval MAX_TRANSFER_INTERVAL) MIN_TRANSFER_INTERVAL in
    set_transfer_interval
      (U.u32 (U.add64 (U.mul64 (transfer_interval_ r) 7) interval / 8)) r
  else r.

Definition prepareForNextTransfer (r : TransferReceiver) : TransferReceiver :=
  let r := set_tid (TransferID.increment (tid_ r)) r in
  let r := set_next_frame_index 0 r in
  set_buffer_write_pos 0 r.

Definition validate (r : TransferReceiver) (frame : RxFrame) : bool :=
  if negb (iface_index_ r =? getIfaceIndex frame) then false
  else if isFirstFrame frame && negb (isLastFrame frame) &&
          (getPayloadLen frame <? CRC_LEN) then false
  else if (getFrameIndex frame =? FRAME_INDEX_MAX) &&
          negb (isLastFrame frame) then false
  else if negb (getFrameIndex frame =? next_frame_index_ r) then false
  else if negb (TidRelation_eqb (getTidRelation r frame) TID_SAME) then false
  else true.

(** [(payload[0] & 0xFF) | (uint16_t(payload[1] & 0xFF) << 8)] *)
Definition crc_of_payload (payload : list Z) : Z :=
  Z.lor (Z.land (nth 0 payload 0) 255)
        (Z.shiftl (Z.land (nth 1 payload 0) 255) 8).

Section WithBuffer.

Context {B : Type} {buffer : TransferBufferBase B}.

Definition writePayload (r : TransferReceiver) (frame : RxFrame) (buf : B)
  : bool * TransferReceiver * B :=
  let payload := getPayload frame in
  let payload_len := getPayloadLen frame in
  if isFirstFrame frame then
    if getPayloadLen frame <? CRC_LEN then (false, r, buf)
    else
      let r := set_this_transfer_crc (crc_of_payload payload) r in
      let effective_payload_len := payload_len - CRC_LEN in
      let (res, buf) := write buf (buffer_write_pos_ r) (skipn 2 payload) in
      let success := res =? effective_payload_len in
      let r :=
        if success
        then set_buffer_write_pos (buffer_write_pos_ r + effective_payload_len) r
        else r in
      (success, r, buf)
  else
    let (res, buf) := write buf (buffer_write_pos_ r) payload in
    let success := res =? payload_len in
    let r :=
      if success
      then set_buffer_write_pos (buffer_write_pos_ r + payload_len) r
      else r in
    (success, r, buf).

Definition receive (r : TransferReceiver) (frame : RxFrame)
           (tba : TransferBufferAccessor B)
  : ResultCode * TransferReceiver * TransferBufferAccessor B :=
  let r :=
    if isFirstFrame frame
    then set_first_frame_ts_utc (getUtcTimestamp frame)
           (set_this_transfer_ts_monotonic (getMonotonicTimestamp frame) r)
    else r in
  if isFirstFrame frame && isLastFrame frame then
    let tba := tba_remove tba in
    let r := updateTransferTimings r in
    let r := prepareForNextTransfer r in
    let r := set_this_transfer_crc 0 r in
    (RESULT_SINGLE_FRAME, r, tba)
  else
    let (buf, tba) :=
      match tba_access tba with
      | Some b => (Some b, tba)
      | None => tba_create tba
      end in
    match buf with
    | None => (RESULT_NOT_COMPLETE, prepareForNextTransfer r, tba)
    | Some b =>
        let '(ok, r, b) := writePayload r frame b in
        let tba := tba_written tba b in
        if negb ok then
          (RESULT_NOT_COMPLETE, prepareForNextTransfer r, tba_remove tba)
        else
          let r := set_next_frame_index (next_frame_index_ r + 1) r in
          if isLastFrame frame then
            let r := updateTransferTimings r in
            let r := prepareForNextTransfer r in
            (RESULT_COMPLETE, r, tba)
          else (RESULT_NOT_COMPLETE, r, tba)
    end.

End WithBuffer.

(** [INTERVAL_MULT = (1 << TransferID::BITLEN) / 2 + 1] *)
Definition INTERVAL_MULT : Z := Z.quot (Z.shiftl 1 BITLEN) 2 + 1.

Definition isTimedOut (r : TransferReceiver) (ts_monotonic : Z) : bool :=
  let ts := this_transfer_ts_monotonic_ r in
  if ts_monotonic <=? ts then false
  else U.sub64 ts_monotonic ts >? U.mul64 (transfer_interval_ r) INTERVAL_MULT.

(** Modelled from the spec: [isInitialized] (defined in the class
    declaration).  No transfer has ever been started on a receiver whose
    interface index still holds the sentinel the constructor put there;
    every restart overwrites it with a frame's interface. *)
Definition isInitialized (r : TransferReceiver) : bool :=
  negb (iface_index_ r =? IFACE_INDEX_NOTSET).

(** Modelled from the spec: the constructor (defined in the class
    declaration).  Nothing received yet, the interval at its default. *)
Definition initial : TransferReceiver :=
  {| prev_transfer_ts_monotonic_ := 0;
     this_transfer_ts_monotonic_ := 0;
     first_frame_ts_utc_ := 0;
     transfer_interval_ := DEFAULT_TRANSFER_INTERVAL;
     this_transfer_crc_ := 0;
     buffer_write_pos_ := 0;
     tid_ := 0;
     iface_index_ := IFACE_INDEX_NOTSET;
     next_frame_index_ := 0 |}.

(** The three named parts of [addFrame]'s decision. *)

(** The opening guard on the frame's monotonic timestamp. *)
Definition timestamp_rejected (r : TransferReceiver) (frame : RxFrame) : bool :=
  (getMonotonicTimestamp frame =? 0) ||
  (getMonotonicTimestamp frame <? prev_transfer_ts_monotonic_ r) ||
  (getMonotonicTimestamp frame <? this_transfer_ts_monotonic_ r).

Definition iface_timed_out (r : TransferReceiver) (frame : RxFrame) : bool :=
  U.sub64 (getMonotonicTimestamp frame) (this_transfer_ts_monotonic_ r)
  >? U.mul64 (transfer_interval_ r) 2.

Definition need_restart (r : TransferReceiver) (frame : RxFrame) : bool :=
  let not_initialized := negb (isInitialized r) in
  let receiver_timed_out := isTimedOut r (getMonotonicTimestamp frame) in
  let same_iface := getIfaceIndex frame =? iface_index_ r in
  let first_fame := isFirstFrame frame in
  let tid_rel := getTidRelation r frame in
  not_initialized ||
  receiver_timed_out ||
  (same_iface && first_fame && TidRelation_eqb tid_rel TID_FUTURE) ||
  (iface_timed_out r frame && first_fame && TidRelation_eqb tid_rel TID_FUTURE).

(** The member assignments of the restart branch, before the test on
    [first_fame]. *)
Definition restart (r : TransferReceiver) (frame : RxFrame) : TransferReceiver :=
  let r := set_iface_index (getIfaceIndex frame) r in
  let r := set_tid (getTransferID frame) r in
  let r := set_next_frame_index 0 r in
  let r := set_buffer_write_pos 0 r in
  set_this_transfer_crc 0 r.

Section WithBuffer.

Context {B : Type} {buffer : TransferBufferBase B}.

Definition addFrame (r : TransferReceiver) (frame : RxFrame)
           (tba : TransferBufferAccessor B)
  : ResultCode * TransferReceiver * TransferBufferAccessor B :=
  if timestamp_rejected r frame then (RESULT_NOT_COMPLETE, r, tba)
  else
    let '(returned, r, tba) :=
      if need_restart r frame then
        let tba := tba_remove tba in
        let r := restart r frame in
        if negb (isFirstFrame frame)
        then (true, set_tid (TransferID.increment (tid_ r)) r, tba)
        else (false, r, tba)
      else (false, r, tba) in
    if returned then (RESULT_NOT_COMPLETE, r, tba)
    else if negb (validate r frame) then (RESULT_NOT_COMPLETE, r, tba)
    else receive r frame tba.

(** A stream of frames given to [addFrame] one after the other on the same
    accessor: the result codes in order, and the final receiver and
    accessor. *)
Fixpoint addFrames (r : TransferReceiver) (tba : TransferBufferAccessor B)
         (frames : list RxFrame)
  : list ResultCode * TransferReceiver * TransferBufferAccessor B :=
  match frames with
  | [] => ([], r, tba)
  | frame :: rest =>
      let '(code, r1, tba1) := addFrame r frame tba in
      let '(codes, r2, tba2) := addFrames r1 tba1 rest in
      (code :: codes, r2, tba2)
  end.

(** The same frame given [n] times. *)
Definition replay (n : nat) (r : TransferReceiver)
           (tba : TransferBufferAccessor B) (frame : RxFrame) :=
  addFrames r tba (repeat frame n).

(** Frames given to [addFrame], each with the accessor the caller built
    for that call; only the receiver is threaded through. *)
Fixpoint addFrames_any (r : TransferReceiver)
         (calls : list (RxFrame * TransferBufferAccessor B)) : TransferReceiver :=
  match calls with
  | [] => r
  | (frame, tba) :: rest => addFrames_any (snd (fst (addFrame r frame tba))) rest
  end.

End WithBuffer.

End Receiver.

(** ** A concrete configuration and a concrete buffer

    Used to run the receiver on explicit frames. *)

Module Demo.

(** A 5-bit transfer ID, intervals in microseconds. *)
Definition config : Config :=
  {| BITLEN := 5;
     FRAME_INDEX_MAX := 62;
     DEFAULT_TRANSFER_INTERVAL := 500000;
     MIN_TRANSFER_INTERVAL := 1000;
     MAX_TRANSFER_INTERVAL := 10000000;
     IFACE_INDEX_NOTSET := 255 |}.

(** Modelled from the spec: a payload buffer of fixed capacity [SIZE]
    behind [write(offset, bytes, length) -> bytesWritten]: it takes the
    bytes that fit below [SIZE] and reports how many it took.  The buffer
    is the list of bytes stored so far. *)
Definition static_write (SIZE : Z) (buf : list Z) (offset : Z) (data : list Z)
  : Z * list Z :=
  if SIZE <=? offset then (0, buf)
  else
    let n := Z.min (Z.of_nat (length data)) (SIZE - offset) in
    let before := firstn (Z.to_nat offset)
                         (buf ++ repeat 0 (Z.to_nat offset - length buf)) in
    (n, before ++ firstn (Z.to_nat n) data ++ skipn (Z.to_nat (offset + n)) buf).

Definition StaticTransferBuffer (SIZE : Z) : TransferBufferBase (list Z) :=
  {| write := static_write SIZE |}.

(** An accessor holding nothing, over a pool that hands out empty buffers. *)
Definition empty_tba : TransferBufferAccessor (list Z) :=
  {| tba_held := None; tba_pool := Some [] |}.

Definition mk_frame (iface tid index : Z) (first last : bool) (ts : Z)
           (payload : list Z) : RxFrame :=
  {| getIfaceIndex := iface;
     getTransferID := tid;
     getFrameIndex := index;
     isFirstFrame := first;
     isLastFrame := last;
     getMonotonicTimestamp := ts;
     getUtcTimestamp := 0;
     getPayload := payload |}.

(** A three-frame transfer with CRC [0x1234] and data [1;2;3], [4;5], [6]. *)
Definition frame_a0 := mk_frame 0 0 0 true false 1000 [52; 18; 1; 2; 3].
Definition frame_a1 := mk_frame 0 0 1 false false 1100 [4; 5].
Definition frame_a2 := mk_frame 0 0 2 false true 1200 [6].

(** The same transfer cut short: its second frame closes it. *)
Definition frame_a1_last := mk_frame 0 0 1 false true 1100 [4; 5].

(** A single-frame transfer. *)
Definition frame_s := mk_frame 0 0 0 true true 1000 [7; 8; 9].

(** A two-frame transfer following [frame_s], its last frame arriving late
    but within the receiver timeout in force when it arrives. *)
Definition frame_b0 := mk_frame 0 1 0 true false 2000 [205; 171; 1; 2].
Definition frame_b1 := mk_frame 0 1 1 false true 8402000 [3; 4].

(** A first frame of the next transfer, on the second interface, arriving
    shortly after [frame_a0]. *)
Definition frame_c0 := mk_frame 1 1 0 true false 1050 [0; 0; 9].

(** A continuation frame arriving on an idle receiver. *)
Definition frame_d1 := mk_frame 0 5 1 false false 1000 [1].

End Demo.

(** ** Vocabulary of the properties *)

Section Vocabulary.

Context {cfg : Config}.

(** The adaptive interval lies within its bounds. *)
Definition interval_in_bounds (r : TransferReceiver) : Prop :=
  MIN_TRANSFER_INTERVAL <= transfer_interval_ r <= MAX_TRANSFER_INTERVAL.

(** The interval constants are [uint32_t] values, ordered. *)
Definition intervals_ordered : Prop :=
  0 <= MIN_TRANSFER_INTERVAL /\
  MIN_TRANSFER_INTERVAL <= DEFAULT_TRANSFER_INTERVAL /\
  DEFAULT_TRANSFER_INTERVAL <= MAX_TRANSFER_INTERVAL /\
  MAX_TRANSFER_INTERVAL < 2 ^ 32.

(** A gap sample clamped to the interval bounds. *)
Definition clamp (gap : Z) : Z :=
  Z.max (Z.min gap MAX_TRANSFER_INTERVAL) MIN_TRANSFER_INTERVAL.

(** A value of the N-bit transfer-ID space. *)
Definition is_tid (a : Z) : Prop := 0 <= a < 2 ^ BITLEN.

(** The frame index and the write cursor share a lifecycle: the index is
    never negative, and the cursor is 0 whenever the index is. *)
Definition cursor_follows_index (r : TransferReceiver) : Prop :=
  0 <= next_frame_index_ r /\
  (next_frame_index_ r = 0 -> buffer_write_pos_ r = 0).

(** The receiver [validate] sees: restarted on the frame if a restart
    trigger fires, else as it was. *)
Definition admission_state (r : TransferReceiver) (frame : RxFrame)
  : TransferReceiver :=
  if need_restart r frame then restart r frame else r.

(** The frame passes admission and validation on receiver [r]: the
    timestamp guard lets it through, a restart (if one fires) does not
    discard it, and [validate] accepts it on the receiver the restart
    leaves. *)
Definition frame_passes (r : TransferReceiver) (frame : RxFrame) : bool :=
  negb (timestamp_rejected r frame) &&
  (negb (need_restart r frame) || isFirstFrame frame) &&
  validate (admission_state r frame) frame.

(** The two payload bytes of the CRC header as a little-endian value. *)
Definition le16 (payload : list Z) : Z :=
  nth 0 payload 0 mod 256 + 256 * (nth 1 payload 0 mod 256).

(** Sum of the frames' payload lengths. *)
Definition total_payload_len (frames : list RxFrame) : Z :=
  fold_right (fun frame acc => getPayloadLen frame + acc) 0 frames.

(** A multi-frame transfer: a first frame with index 0, continuation frames
    that are neither first nor last, and a closing last frame. *)
Definition multi_frame_transfer (first : RxFrame) (middle : list RxFrame)
           (last : RxFrame) : Prop :=
  isFirstFrame first = true /\ isLastFrame first = false /\
  getFrameIndex first = 0 /\
  Forall (fun frame => isFirstFrame frame = false /\
                       isLastFrame frame = false) middle /\
  isFirstFrame last = false /\ isLastFrame last = true.

(** What [receive] writes for such a transfer, frame by frame. *)
Definition transfer_chunks (first : RxFrame) (middle : list RxFrame)
           (last : RxFrame) : list (list Z) :=
  skipn 2 (getPayload first) :: map getPayload middle ++ [getPayload last].

Section WithBuffer.

Context {B : Type} {buffer : TransferBufferBase B}.

(** Every frame of the stream passes admission and validation, in order,
    on the receiver the frames before it leave. *)
Fixpoint stream_passes (r : TransferReceiver) (tba : TransferBufferAccessor B)
         (frames : list RxFrame) : bool :=
  match frames with
  | [] => true
  | frame :: rest =>
      frame_passes r frame &&
      let '(_, r1, tba1) := addFrame r frame tba in
      stream_passes r1 tba1 rest
  end.

(** The buffer takes each chunk in full when the chunks are written one
    after the other from offset [pos]. *)
Fixpoint writes_accepted (buf : B) (pos : Z) (chunks : list (list Z)) : Prop :=
  match chunks with
  | [] => True
  | data :: rest =>
      fst (write buf pos data) = Z.of_nat (length data) /\
      writes_accepted (snd (write buf pos data))
                      (pos + Z.of_nat (length data)) rest
  end.

(** The buffer [receive] gets for a transfer's first frame: a restart
    releases the held one first; then the held buffer, else a new one from
    the pool. *)
Definition buffer_for_first_frame (r : TransferReceiver) (frame : RxFrame)
           (tba : TransferBufferAccessor B) : option B :=
  let tba := if need_restart r frame then tba_remove tba else tba in
  match tba_access tba with
  | Some b => Some b
  | None => fst (tba_create tba)
  end.

End WithBuffer.

End Vocabulary.

(** ** Vocabulary of the further properties *)

(** [receive] takes the transfer's timestamps from a first frame. *)
Definition latch (frame : RxFrame) (r : TransferReceiver) : TransferReceiver :=
  if isFirstFrame frame
  then set_first_frame_ts_utc (getUtcTimestamp frame)
         (set_this_transfer_ts_monotonic (getMonotonicTimestamp frame) r)
  else r.

(** The frame's first-frame flag is set exactly on frame index 0. *)
Definition first_is_index_zero (frame : RxFrame) : Prop :=
  isFirstFrame frame = (getFrameIndex frame =? 0).

(** The frame carries at most [limit] payload bytes. *)
Definition payload_at_most (limit : Z) (frame : RxFrame) : Prop :=
  getPayloadLen frame <= limit.

(** The frame's transfer ID is a value of the N-bit space. *)
Definition tid_in_space `{Config} (frame : RxFrame) : Prop :=
  is_tid (getTransferID frame).

(** The CRC [c] and byte count [n] that a successful [writePayload] of the
    frame leaves on a receiver whose CRC was [crc]. *)
Definition written (frame : RxFrame) (crc c n : Z) : Prop :=
  (isFirstFrame frame = true /\ CRC_LEN <= getPayloadLen frame /\
   c = le16 (getPayload frame) /\ n = getPayloadLen frame - CRC_LEN) \/
  (isFirstFrame frame = false /\ c = crc /\ n = getPayloadLen frame).

(** The CRC a failed [writePayload] of the frame may leave. *)
Definition crc_after_failure (frame : RxFrame) (crc c : Z) : Prop :=
  c = crc \/ (isFirstFrame frame = true /\ c = le16 (getPayload frame)).

(** The ways one call of [addFrame] can take the receiver from [r], with
    the result code of each: the paths through [addFrame] and [receive]. *)
Inductive Transition `{Config} (r : TransferReceiver) (frame : RxFrame)
  : ResultCode -> TransferReceiver -> Prop :=
| T_dropped :
    timestamp_rejected r frame = true \/
    (need_restart r frame = false /\ validate r frame = false) ->
    Transition r frame RESULT_NOT_COMPLETE r
| T_restart_discard :
    timestamp_rejected r frame = false ->
    need_restart r frame = true ->
    isFirstFrame frame = false ->
    Transition r frame RESULT_NOT_COMPLETE
      (set_tid (TransferID.increment (getTransferID frame)) (restart r frame))
| T_restart_invalid :
    timestamp_rejected r frame = false ->
    need_restart r frame = true ->
    isFirstFrame frame = true ->
    validate (restart r frame) frame = false ->
    Transition r frame RESULT_NOT_COMPLETE (restart r frame)
| T_single :
    frame_passes r frame = true ->
    isFirstFrame frame = true -> isLastFrame frame = true ->
    Transition r frame RESULT_SINGLE_FRAME
      (set_this_transfer_crc 0
         (prepareForNextTransfer
            (updateTransferTimings (latch frame (admission_state r frame)))))
| T_abort :
    forall c,
    frame_passes r frame = true ->
    isFirstFrame frame && isLastFrame frame = false ->
    crc_after_failure frame (this_transfer_crc_ (admission_state r frame)) c ->
    Transition r frame RESULT_NOT_COMPLETE
      (prepareForNextTransfer
         (set_this_transfer_crc c (latch frame (admission_state r frame))))
| T_progress :
    forall c n,
    frame_passes r frame = true ->
    isLastFrame frame = false ->
    written frame (this_transfer_crc_ (admission_state r frame)) c n ->
    Transition r frame RESULT_NOT_COMPLETE
      (set_next_frame_index
         (next_frame_index_ (admission_state r frame) + 1)
         (set_buffer_write_pos
            (buffer_write_pos_ (admission_state r frame) + n)
            (set_this_transfer_crc c (latch frame (admission_state r frame)))))
| T_complete :
    forall c n,
    frame_passes r frame = true ->
    isFirstFrame frame = false -> isLastFrame frame = true ->
    written frame (this_transfer_crc_ (admission_state r frame)) c n ->
    Transition r frame RESULT_COMPLETE
      (prepareForNextTransfer
         (updateTransferTimings
            (set_next_frame_index
               (next_frame_index_ (admission_state r frame) + 1)
               (set_buffer_write_pos
                  (buffer_write_pos_ (admission_state r frame) + n)
                  (set_this_transfer_crc c
                     (latch frame (admission_state r frame))))))).

(** The frame index and the write cursor are never negative, and the
    cursor is 0 whenever the index is. *)
Definition counters_share_lifecycle (r : TransferReceiver) : Prop :=
  0 <= next_frame_index_ r /\ 0 <= buffer_write_pos_ r /\
  (next_frame_index_ r = 0 -> buffer_write_pos_ r = 0).

(** The frame carries a real interface index, not the sentinel. *)
Definition on_real_interface `{Config} (frame : RxFrame) : Prop :=
  getIfaceIndex frame <> IFACE_INDEX_NOTSET.

(** The buffer [receive] gets for a frame: a restart releases the held one
    first; then the held buffer, else a new one from the pool. *)
Definition acquired_buffer `{Config} {B : Type} (r : TransferReceiver)
           (frame : RxFrame) (tba : TransferBufferAccessor B) : option B :=
  let tba := if need_restart r frame then tba_remove tba else tba in
  match tba_access tba with
  | Some b => Some b
  | None => fst (tba_create tba)
  end.

(** Every frame of the calls satisfies [P]. *)
Definition frames_satisfy {B : Type} (P : RxFrame -> Prop)
           (calls : list (RxFrame * TransferBufferAccessor B)) : Prop :=
  Forall (fun call => P (fst call)) calls.

(** * Properties *)

(** ** Arithmetic of the wrap-around *)

Lemma u64_exact (x : Z) : U.is_u64 x -> U.u64 x = x.
Proof.
  unfold U.is_u64, U.u64, U.wrap. intros Hx. now apply Z.mod_small.
Qed.

Lemma sub64_exact (a b : Z) :
  U.is_u64 a -> U.is_u64 b -> b <= a -> U.sub64 a b = a - b.
Proof.
  unfold U.sub64. intros Ha Hb Hle. apply u64_exact.
  unfold U.is_u64 in *. lia.
Qed.

Lemma half_circle `{Config} :
  0 < BITLEN -> Z.quot (Z.shiftl 1 BITLEN) 2 = 2 ^ (BITLEN - 1).
Proof.
  intros Hpos.
  rewrite Z.shiftl_mul_pow2, Z.mul_1_l by lia.
  replace BITLEN with (1 + (BITLEN - 1)) at 1 by lia.
  rewrite Z.pow_add_r, Z.pow_1_r, Z.mul_comm by lia.
  apply Z.quot_mul. lia.
Qed.

Lemma half_circle_double `{Config} :
  0 < BITLEN -> 2 ^ BITLEN = 2 * 2 ^ (BITLEN - 1).
Proof.
  intros Hpos.
  replace BITLEN with (1 + (BITLEN - 1)) at 1 by lia.
  now rewrite Z.pow_add_r, Z.pow_1_r by lia.
Qed.

Lemma forwardDistance_range `{Config} (a b : Z) :
  0 <= TransferID.forwardDistance a b < 2 ^ BITLEN \/ BITLEN < 0.
Proof.
  unfold TransferID.forwardDistance.
  destruct (Z.ltb_spec BITLEN 0) as [Hneg | Hnn]; [now right | left].
  apply Z.mod_pos_bound. now apply Z.pow_pos_nonneg.
Qed.

(** The distance from the successor of [a] back to [a] is the longest one. *)
Lemma forwardDistance_back `{Config} (a : Z) :
  0 <= BITLEN ->
  TransferID.forwardDistance (TransferID.increment a) a = 2 ^ BITLEN - 1.
Proof.
  intros Hnn. unfold TransferID.forwardDistance, TransferID.increment.
  assert (Hpow : 0 < 2 ^ BITLEN) by now apply Z.pow_pos_nonneg.
  rewrite Zminus_mod_idemp_r.
  replace (a - (a + 1)) with (2 ^ BITLEN - 1 + (-1) * 2 ^ BITLEN) by lia.
  rewrite Z.mod_add by lia. apply Z.mod_small. lia.
Qed.

(** ** Case analysis of the transfer-ID relation *)

Lemma TidRelation_eqb_eq (a b : TidRelation) :
  TidRelation_eqb a b = true <-> a = b.
Proof. destruct a, b; simpl; split; congruence. Qed.

Lemma getTidRelation_same `{Config} (r : TransferReceiver) (frame : RxFrame) :
  getTidRelation r frame = TID_SAME <->
  TransferID.forwardDistance (tid_ r) (getTransferID frame) = 0.
Proof.
  unfold getTidRelation.
  destruct (Z.eqb_spec (TransferID.forwardDistance (tid_ r) (getTransferID frame)) 0).
  - tauto.
  - destruct (_ <? _); split; congruence.
Qed.

Lemma getTidRelation_future `{Config} (r : TransferReceiver) (frame : RxFrame) :
  getTidRelation r frame = TID_FUTURE <->
  TransferID.forwardDistance (tid_ r) (getTransferID frame) <> 0 /\
  TransferID.forwardDistance (tid_ r) (getTransferID frame)
  < Z.quot (Z.shiftl 1 BITLEN) 2.
Proof.
  unfold getTidRelation.
  destruct (Z.eqb_spec (TransferID.forwardDistance (tid_ r) (getTransferID frame)) 0).
  - split; [congruence | tauto].
  - destruct (Z.ltb_spec (TransferID.forwardDistance (tid_ r) (getTransferID frame))
                         (Z.quot (Z.shiftl 1 BITLEN) 2)).
    + tauto.
    + split; [congruence | lia].
Qed.

Lemma getTidRelation_repeat `{Config} (r : TransferReceiver) (frame : RxFrame) :
  getTidRelation r frame = TID_REPEAT <->
  TransferID.forwardDistance (tid_ r) (getTransferID frame) <> 0 /\
  Z.quot (Z.shiftl 1 BITLEN) 2
  <= TransferID.forwardDistance (tid_ r) (getTransferID frame).
Proof.
  unfold getTidRelation.
  destruct (Z.eqb_spec (TransferID.forwardDistance (tid_ r) (getTransferID frame)) 0).
  - split; [congruence | tauto].
  - destruct (Z.ltb_spec (TransferID.forwardDistance (tid_ r) (getTransferID frame))
                         (Z.quot (Z.shiftl 1 BITLEN) 2)).
    + split; [congruence | lia].
    + tauto.
Qed.

(** C3: for transfer IDs [a] (expected) and [b] (incoming) of the N-bit
    space, [getTidRelation] answers SAME exactly when the forward distance
    from [a] to [b] is 0 (that is, when [a = b]), FUTURE exactly when the
    distance lies in (0, 2^(N-1)), and REPEAT exactly when it lies in
    [2^(N-1), 2^N). *)
Theorem getTidRelation_half_circle `{Config}
        (r : TransferReceiver) (frame : RxFrame) :
  0 < BITLEN -> is_tid (tid_ r) -> is_tid (getTransferID frame) ->
  let d := TransferID.forwardDistance (tid_ r) (getTransferID frame) in
  d = (getTransferID frame - tid_ r) mod 2 ^ BITLEN /\
  (getTidRelation r frame = TID_SAME <-> d = 0) /\
  (getTidRelation r frame = TID_SAME <-> tid_ r = getTransferID frame) /\
  (getTidRelation r frame = TID_FUTURE <-> 0 < d < 2 ^ (BITLEN - 1)) /\
  (getTidRelation r frame = TID_REPEAT <-> 2 ^ (BITLEN - 1) <= d < 2 ^ BITLEN).
Proof.
  intros Hpos Ha Hb d.
  assert (Hd : 0 <= d < 2 ^ BITLEN).
  { destruct (forwardDistance_range (tid_ r) (getTransferID frame)); [assumption | lia]. }
  pose proof (half_circle Hpos) as Hhalf.
  pose proof (half_circle_double Hpos) as Hdouble.
  split; [reflexivity |].
  split; [apply getTidRelation_same |].
  split.
  - rewrite getTidRelation_same. fold d.
    unfold is_tid in Ha, Hb. split.
    + intros Hd0. subst d. unfold TransferID.forwardDistance in Hd0.
      destruct (Z.eq_dec (tid_ r) (getTransferID frame)) as [|Hne]; [assumption |].
      exfalso.
      destruct (Z.lt_ge_cases (getTransferID frame) (tid_ r)).
      * replace (getTransferID frame - tid_ r)
          with (getTransferID frame - tid_ r + 2 ^ BITLEN + (-1) * 2 ^ BITLEN) in Hd0 by lia.
        rewrite Z.mod_add, Z.mod_small in Hd0 by lia. lia.
      * rewrite Z.mod_small in Hd0 by lia. lia.
    + intros Heq. subst d. unfold TransferID.forwardDistance.
      rewrite Heq, Z.sub_diag. apply Z.mod_0_l. lia.
  - split.
    + rewrite getTidRelation_future, Hhalf. fold d. lia.
    + rewrite getTidRelation_repeat, Hhalf. fold d. lia.
Qed.

(** An instance of C3: on a 5-bit space, 5 is three ahead of 2. *)
Lemma getTidRelation_half_circle_witness :
  @getTidRelation Demo.config
     (set_tid 2 (@initial Demo.config)) Demo.frame_d1 = TID_FUTURE.
Proof.
  destruct (@getTidRelation_half_circle Demo.config
              (set_tid 2 (@initial Demo.config)) Demo.frame_d1)
    as (_ & _ & _ & Hfuture & _).
  - reflexivity.
  - unfold is_tid. simpl. lia.
  - unfold is_tid. simpl. lia.
  - apply Hfuture. vm_compute. split; reflexivity.
Defined.

(** ** The timestamp guard *)

Lemma timestamp_accepted (r : TransferReceiver) (frame : RxFrame) :
  timestamp_rejected r frame = false <->
  getMonotonicTimestamp frame <> 0 /\
  prev_transfer_ts_monotonic_ r <= getMonotonicTimestamp frame /\
  this_transfer_ts_monotonic_ r <= getMonotonicTimestamp frame.
Proof.
  unfold timestamp_rejected.
  rewrite !orb_false_iff, Z.eqb_neq, !Z.ltb_ge. tauto.
Qed.

(** C9: a frame whose monotonic timestamp is zero, or strictly earlier than
    the current transfer's start, or strictly earlier than the previous
    transfer's start, makes [addFrame] return NOT_COMPLETE at once, with the
    receiver and the buffer accessor as they were. *)
Theorem addFrame_rejects_bad_timestamp `{Config} {B} `{TransferBufferBase B}
        (r : TransferReceiver) (frame : RxFrame)
        (tba : TransferBufferAccessor B) :
  getMonotonicTimestamp frame = 0 \/
  getMonotonicTimestamp frame < this_transfer_ts_monotonic_ r \/
  getMonotonicTimestamp frame < prev_transfer_ts_monotonic_ r ->
  addFrame r frame tba = (RESULT_NOT_COMPLETE, r, tba).
Proof.
  intros Hts. unfold addFrame.
  destruct (timestamp_rejected r frame) eqn:Hguard; [reflexivity |].
  apply timestamp_accepted in Hguard. lia.
Qed.

(** An instance of C9: a frame older than the transfer in progress. *)
Lemma addFrame_rejects_bad_timestamp_witness :
  let r := snd (fst (@addFrame Demo.config _ (Demo.StaticTransferBuffer 64)
                       (@initial Demo.config) Demo.frame_b0
                       Demo.empty_tba)) in
  @addFrame Demo.config _ (Demo.StaticTransferBuffer 64)
     r Demo.frame_a1 Demo.empty_tba
  = (RESULT_NOT_COMPLETE, r, Demo.empty_tba).
Proof.
  intros r.
  apply (@addFrame_rejects_bad_timestamp Demo.config _
           (Demo.StaticTransferBuffer 64) r Demo.frame_a1
           Demo.empty_tba).
  right; left. vm_compute. reflexivity.
Defined.

(** ** Unsigned subtraction of timestamps *)

(** C10: the unsigned timestamp subtractions in [addFrame] never wrap.  A
    frame that passes the timestamp guard is not older than the current
    transfer's start, so the difference taken for the stale-interface
    trigger is the exact, non-negative one; [isTimedOut] takes its
    difference only when [now] is strictly later than the recorded start,
    where it is exact as well; and [updateTransferTimings] takes the gap
    only between ordered timestamps. *)
Theorem timestamp_subtractions_exact `{Config}
        (r : TransferReceiver) (frame : RxFrame) :
  U.is_u64 (this_transfer_ts_monotonic_ r) ->
  U.is_u64 (prev_transfer_ts_monotonic_ r) ->
  U.is_u64 (getMonotonicTimestamp frame) ->
  (timestamp_rejected r frame = false ->
   this_transfer_ts_monotonic_ r <= getMonotonicTimestamp frame /\
   U.sub64 (getMonotonicTimestamp frame) (this_transfer_ts_monotonic_ r)
   = getMonotonicTimestamp frame - this_transfer_ts_monotonic_ r /\
   iface_timed_out r frame
   = (getMonotonicTimestamp frame - this_transfer_ts_monotonic_ r
      >? U.mul64 (transfer_interval_ r) 2)) /\
  (forall now, U.is_u64 now ->
     (isTimedOut r now = true -> this_transfer_ts_monotonic_ r < now) /\
     isTimedOut r now
     = (this_transfer_ts_monotonic_ r <? now) &&
       (now - this_transfer_ts_monotonic_ r
        >? U.mul64 (transfer_interval_ r) INTERVAL_MULT)) /\
  (sample_accepted (prev_transfer_ts_monotonic_ r)
     (set_prev_transfer_ts_monotonic (this_transfer_ts_monotonic_ r) r) = true ->
   prev_transfer_ts_monotonic_ r <= this_transfer_ts_monotonic_ r /\
   U.sub64 (this_transfer_ts_monotonic_ r) (prev_transfer_ts_monotonic_ r)
   = this_transfer_ts_monotonic_ r - prev_transfer_ts_monotonic_ r).
Proof.
  intros Hthis Hprev Hts. split; [| split].
  - intros Hguard. apply timestamp_accepted in Hguard.
    destruct Hguard as (_ & _ & Hle).
    assert (Hsub := sub64_exact _ _ Hts Hthis Hle).
    unfold iface_timed_out. rewrite Hsub. auto.
  - intros now Hnow. unfold isTimedOut.
    destruct (Z.leb_spec now (this_transfer_ts_monotonic_ r)) as [Hle | Hlt].
    + split; [discriminate |].
      apply Z.ltb_ge in Hle. now rewrite Hle.
    + split; [intros _; assumption |].
      rewrite sub64_exact by (try assumption; lia).
      apply Z.ltb_lt in Hlt. now rewrite Hlt.
  - intros Hacc. unfold sample_accepted in Hacc. simpl in Hacc.
    apply andb_prop in Hacc as [_ Hge]. apply Z.geb_le in Hge.
    split; [assumption | now apply sub64_exact].
Qed.

(** An instance of C10: the late last frame of a transfer in progress. *)
Lemma timestamp_subtractions_exact_witness :
  let r := snd (fst (@addFrames Demo.config _ (Demo.StaticTransferBuffer 64)
                       (@initial Demo.config) Demo.empty_tba
                       [Demo.frame_s; Demo.frame_b0])) in
  U.sub64 (getMonotonicTimestamp Demo.frame_b1) (this_transfer_ts_monotonic_ r)
  = 8400000.
Proof.
  intros r.
  assert (Hu64 : forall x, 0 <= x < 2 ^ 32 -> U.is_u64 x)
    by (unfold U.is_u64; intros x Hx; lia).
  destruct (@timestamp_subtractions_exact Demo.config r Demo.frame_b1)
    as [Hguard _]; try (apply Hu64; vm_compute; split; congruence).
  assert (Hpass : timestamp_rejected r Demo.frame_b1 = false)
    by (vm_compute; reflexivity).
  destruct (Hguard Hpass) as (_ & Hsub & _).
  rewrite Hsub. vm_compute. reflexivity.
Defined.

(** ** The adaptive interval *)

Section Interval.

Context {cfg : Config}.
Hypothesis Hcfg : intervals_ordered.

Lemma clamp_in_bounds (gap : Z) :
  MIN_TRANSFER_INTERVAL <= clamp gap <= MAX_TRANSFER_INTERVAL.
Proof. unfold clamp. destruct Hcfg as (? & ? & ? & ?). lia. Qed.

(** The weighted average of two values within the bounds, computed in
    [uint64_t] and cast to [uint32_t], is the exact one and within the
    bounds. *)
Lemma average_in_bounds (old sample : Z) :
  MIN_TRANSFER_INTERVAL <= old <= MAX_TRANSFER_INTERVAL ->
  MIN_TRANSFER_INTERVAL <= sample <= MAX_TRANSFER_INTERVAL ->
  U.u32 (U.add64 (U.mul64 old 7) sample / 8) = (old * 7 + sample) / 8 /\
  MIN_TRANSFER_INTERVAL <= (old * 7 + sample) / 8 <= MAX_TRANSFER_INTERVAL.
Proof.
  intros Hold Hsample. destruct Hcfg as (Hmin & _ & _ & Hmax).
  assert (H32 : 2 ^ 32 = 4294967296) by reflexivity.
  assert (H64 : 2 ^ 64 = 18446744073709551616) by reflexivity.
  assert (Hbounds : MIN_TRANSFER_INTERVAL <= (old * 7 + sample) / 8
                    <= MAX_TRANSFER_INTERVAL).
  { split.
    - apply Z.div_le_lower_bound; lia.
    - apply Z.div_le_upper_bound; lia. }
  split; [| assumption].
  unfold U.mul64, U.add64.
  rewrite (u64_exact (old * 7)) by (unfold U.is_u64; lia).
  rewrite u64_exact by (unfold U.is_u64; lia).
  unfold U.u32, U.wrap. apply Z.mod_small. lia.
Qed.

Lemma updateTransferTimings_interval (r : TransferReceiver) :
  interval_in_bounds r ->
  transfer_interval_ (updateTransferTimings r)
  = if sample_accepted (prev_transfer_ts_monotonic_ r)
         (set_prev_transfer_ts_monotonic (this_transfer_ts_monotonic_ r) r)
    then (transfer_interval_ r * 7
          + clamp (U.sub64 (this_transfer_ts_monotonic_ r)
                           (prev_transfer_ts_monotonic_ r))) / 8
    else transfer_interval_ r.
Proof.
  intros Hin. unfold updateTransferTimings.
  destruct (sample_accepted _ _); [| reflexivity].
  simpl.
  apply (average_in_bounds (transfer_interval_ r)
           (clamp (U.sub64 (this_transfer_ts_monotonic_ r)
                           (prev_transfer_ts_monotonic_ r))) Hin
           (clamp_in_bounds _)).
Qed.

Lemma updateTransferTimings_in_bounds (r : TransferReceiver) :
  interval_in_bounds r -> interval_in_bounds (updateTransferTimings r).
Proof.
  intros Hin. unfold interval_in_bounds.
  rewrite (updateTransferTimings_interval r Hin).
  destruct (sample_accepted _ _); [| assumption].
  apply average_in_bounds; [assumption | apply clamp_in_bounds].
Qed.

Lemma prepareForNextTransfer_in_bounds (r : TransferReceiver) :
  interval_in_bounds r -> interval_in_bounds (prepareForNextTransfer r).
Proof. auto. Qed.

Section WithBuffer.

Context {B : Type} {buffer : TransferBufferBase B}.

Lemma writePayload_interval (r : TransferReceiver) (frame : RxFrame) (buf : B) :
  transfer_interval_ (snd (fst (writePayload r frame buf)))
  = transfer_interval_ r.
Proof.
  unfold writePayload.
  destruct (isFirstFrame frame).
  - destruct (getPayloadLen frame <? CRC_LEN); [reflexivity |].
    destruct (write _ _ _) as [res buf']. simpl.
    destruct (res =? _); reflexivity.
  - destruct (write _ _ _) as [res buf']. simpl.
    destruct (res =? _); reflexivity.
Qed.

Lemma receive_in_bounds (r : TransferReceiver) (frame : RxFrame)
      (tba : TransferBufferAccessor B) :
  interval_in_bounds r -> interval_in_bounds (snd (fst (receive r frame tba))).
Proof.
  intros Hin. unfold receive.
  set (r0 := if isFirstFrame frame then _ else r).
  assert (Hin0 : interval_in_bounds r0)
    by (subst r0; destruct (isFirstFrame frame); assumption).
  clearbody r0.
  destruct (isFirstFrame frame && isLastFrame frame).
  - simpl. apply (updateTransferTimings_in_bounds r0 Hin0).
  - destruct (match tba_access tba with Some b => _ | None => _ end)
      as [[b |] tba']; [| exact Hin0].
    pose proof (writePayload_interval r0 frame b) as Hw.
    destruct (writePayload r0 frame b) as [[ok r1] b']. simpl in Hw.
    assert (Hin1 : interval_in_bounds r1)
      by (unfold interval_in_bounds; rewrite Hw; exact Hin0).
    destruct ok; simpl; [| exact Hin1].
    destruct (isLastFrame frame); simpl; [| exact Hin1].
    apply (updateTransferTimings_in_bounds
             (set_next_frame_index (next_frame_index_ r1 + 1) r1) Hin1).
Qed.

Lemma addFrame_in_bounds (r : TransferReceiver) (frame : RxFrame)
      (tba : TransferBufferAccessor B) :
  interval_in_bounds r -> interval_in_bounds (snd (fst (addFrame r frame tba))).
Proof.
  intros Hin. unfold addFrame.
  destruct (timestamp_rejected r frame); [exact Hin |].
  destruct (need_restart r frame).
  - destruct (isFirstFrame frame); simpl; [| exact Hin].
    destruct (validate (restart r frame) frame); simpl; [| exact Hin].
    apply receive_in_bounds. exact Hin.
  - simpl. destruct (validate r frame); simpl; [| exact Hin].
    apply receive_in_bounds. exact Hin.
Qed.

Lemma addFrames_any_in_bounds
      (calls : list (RxFrame * TransferBufferAccessor B)) :
  forall r, interval_in_bounds r -> interval_in_bounds (addFrames_any r calls).
Proof.
  induction calls as [| [frame tba] calls IH]; intros r Hin; simpl.
  - exact Hin.
  - apply IH, addFrame_in_bounds, Hin.
Qed.

End WithBuffer.

Lemma initial_in_bounds : interval_in_bounds initial.
Proof. unfold interval_in_bounds; simpl. destruct Hcfg as (? & ? & ? & ?). lia. Qed.

End Interval.

(** C4: after initialization, whatever frames are given to the receiver and
    whatever the buffers do, the adaptive interval stays within
    [[MIN_TRANSFER_INTERVAL, MAX_TRANSFER_INTERVAL]].  [updateTransferTimings]
    clamps each accepted gap to that range, whatever the gap, and folds it
    in as (7 * old + sample) / 8; it leaves the interval as it was when a
    timestamp is missing (zero) or the two are not in order. *)
Theorem adaptive_interval_in_bounds `{Config} {B} `{TransferBufferBase B} :
  intervals_ordered ->
  (forall calls : list (RxFrame * TransferBufferAccessor B),
     interval_in_bounds (addFrames_any initial calls)) /\
  (forall r : TransferReceiver,
     interval_in_bounds r ->
     let prev := prev_transfer_ts_monotonic_ r in
     let this := this_transfer_ts_monotonic_ r in
     let r' := updateTransferTimings r in
     interval_in_bounds r' /\
     (prev <> 0 -> this <> 0 -> prev <= this ->
      MIN_TRANSFER_INTERVAL <= clamp (U.sub64 this prev) <= MAX_TRANSFER_INTERVAL /\
      transfer_interval_ r'
      = (transfer_interval_ r * 7 + clamp (U.sub64 this prev)) / 8) /\
     (prev = 0 \/ this = 0 \/ this < prev ->
      transfer_interval_ r' = transfer_interval_ r)).
Proof.
  intros Hcfg. split.
  - intros calls. apply addFrames_any_in_bounds; [exact Hcfg |].
    apply initial_in_bounds, Hcfg.
  - intros r Hin prev this r'. split; [| split].
    + apply updateTransferTimings_in_bounds; assumption.
    + intros Hprev Hthis Hle. split; [apply clamp_in_bounds, Hcfg |].
      subst r'. rewrite (updateTransferTimings_interval Hcfg r Hin).
      unfold sample_accepted. simpl. fold prev this.
      apply Z.eqb_neq in Hprev, Hthis. rewrite Hprev, Hthis.
      apply Z.geb_le in Hle. now rewrite Hle.
    + intros Hbad. subst r'. rewrite (updateTransferTimings_interval Hcfg r Hin).
      unfold sample_accepted. simpl. fold prev this.
      destruct (Z.eqb_spec prev 0); [reflexivity |].
      destruct (Z.eqb_spec this 0); [reflexivity |].
      destruct (Z.geb_spec this prev); [lia | reflexivity].
Qed.

(** An instance of C4: the interval after a single-frame transfer and a
    two-frame transfer that started 1 ms later. *)
Lemma adaptive_interval_in_bounds_witness :
  @interval_in_bounds Demo.config
    (@addFrames_any Demo.config _ (Demo.StaticTransferBuffer 64)
       (@initial Demo.config)
       [(Demo.frame_s, Demo.empty_tba);
        (Demo.frame_b0, Demo.empty_tba);
        (Demo.frame_b1, {| tba_held := Some [1; 2]; tba_pool := Some [] |})]).
Proof.
  assert (Hcfg : @intervals_ordered Demo.config)
    by (unfold intervals_ordered; simpl; lia).
  destruct (@adaptive_interval_in_bounds Demo.config _
              (Demo.StaticTransferBuffer 64) Hcfg) as [Hall _].
  exact (Hall _).
Defined.

(** ** Restart on a continuation frame *)

(** C5: when a restart trigger fires on a frame that is not a first frame,
    [addFrame] releases any held buffer, takes over the frame's interface,
    sets the expected transfer ID one past the frame's (with wrap-around),
    resets the frame index, the write cursor and the CRC to 0, leaves the
    timestamps and the interval alone, and returns NOT_COMPLETE; the frame
    is neither validated nor written anywhere. *)
Theorem addFrame_restart_on_continuation `{Config} {B} `{TransferBufferBase B}
        (r : TransferReceiver) (frame : RxFrame)
        (tba : TransferBufferAccessor B) :
  timestamp_rejected r frame = false ->
  need_restart r frame = true ->
  isFirstFrame frame = false ->
  addFrame r frame tba
  = (RESULT_NOT_COMPLETE,
     {| prev_transfer_ts_monotonic_ := prev_transfer_ts_monotonic_ r;
        this_transfer_ts_monotonic_ := this_transfer_ts_monotonic_ r;
        first_frame_ts_utc_ := first_frame_ts_utc_ r;
        transfer_interval_ := transfer_interval_ r;
        this_transfer_crc_ := 0;
        buffer_write_pos_ := 0;
        tid_ := TransferID.increment (getTransferID frame);
        iface_index_ := getIfaceIndex frame;
        next_frame_index_ := 0 |},
     {| tba_held := None; tba_pool := tba_pool tba |}).
Proof.
  intros Hguard Hrestart Hfirst. unfold addFrame.
  rewrite Hguard, Hrestart, Hfirst. reflexivity.
Qed.

(** An instance of C5: a continuation frame on a receiver that has never
    started a transfer. *)
Lemma addFrame_restart_on_continuation_witness :
  tid_ (snd (fst (@addFrame Demo.config _ (Demo.StaticTransferBuffer 64)
                    (@initial Demo.config) Demo.frame_d1
                    Demo.empty_tba))) = 6.
Proof.
  rewrite (@addFrame_restart_on_continuation Demo.config _
             (Demo.StaticTransferBuffer 64) (@initial Demo.config)
             Demo.frame_d1 Demo.empty_tba);
    vm_compute; reflexivity.
Defined.

(** ** Single-frame transfers *)

(** The run of [addFrame] on a single-frame transfer. *)
Lemma single_frame_run `{Config} {B} `{TransferBufferBase B}
      (r : TransferReceiver) (frame : RxFrame)
      (tba : TransferBufferAccessor B) :
  isFirstFrame frame = true ->
  isLastFrame frame = true ->
  frame_passes r frame = true ->
  addFrame r frame tba
  = (RESULT_SINGLE_FRAME,
     set_this_transfer_crc 0
       (prepareForNextTransfer
          (updateTransferTimings
             (set_first_frame_ts_utc (getUtcTimestamp frame)
                (set_this_transfer_ts_monotonic (getMonotonicTimestamp frame)
                   (admission_state r frame))))),
     {| tba_held := None; tba_pool := tba_pool tba |}).
Proof.
  intros Hfirst Hlast Hadm.
  unfold frame_passes in Hadm.
  apply andb_prop in Hadm as [Hadm Hvalid].
  apply andb_prop in Hadm as [Hguard _].
  apply negb_true_iff in Hguard.
  unfold admission_state in *. unfold addFrame.
  rewrite Hguard.
  destruct (need_restart r frame).
  - rewrite Hfirst. simpl negb. cbv iota beta. rewrite Hvalid. simpl negb.
    cbv iota. unfold receive. rewrite Hfirst, Hlast. reflexivity.
  - cbv iota beta. rewrite Hvalid. simpl negb. cbv iota.
    unfold receive. rewrite Hfirst, Hlast. reflexivity.
Qed.

(** C8: a frame that is both first and last and passes admission and
    validation makes [addFrame] release any held buffer, latch the frame's
    timestamps, run [updateTransferTimings] and [prepareForNextTransfer]
    (the expected transfer ID goes up by one, the frame index and the write
    cursor go to 0), set the CRC to 0 and return SINGLE_FRAME. *)
Theorem addFrame_single_frame `{Config} {B} `{TransferBufferBase B}
        (r : TransferReceiver) (frame : RxFrame)
        (tba : TransferBufferAccessor B) :
  isFirstFrame frame = true ->
  isLastFrame frame = true ->
  frame_passes r frame = true ->
  let r0 := admission_state r frame in
  let latched :=
    set_first_frame_ts_utc (getUtcTimestamp frame)
      (set_this_transfer_ts_monotonic (getMonotonicTimestamp frame) r0) in
  let r' := snd (fst (addFrame r frame tba)) in
  addFrame r frame tba
  = (RESULT_SINGLE_FRAME,
     set_this_transfer_crc 0
       (prepareForNextTransfer (updateTransferTimings latched)),
     {| tba_held := None; tba_pool := tba_pool tba |}) /\
  tid_ r' = TransferID.increment (tid_ r0) /\
  next_frame_index_ r' = 0 /\
  buffer_write_pos_ r' = 0 /\
  this_transfer_crc_ r' = 0 /\
  this_transfer_ts_monotonic_ r' = getMonotonicTimestamp frame /\
  prev_transfer_ts_monotonic_ r' = getMonotonicTimestamp frame.
Proof.
  intros Hfirst Hlast Hadm r0 latched r'.
  pose proof (single_frame_run r frame tba Hfirst Hlast Hadm) as Hrun.
  fold r0 in Hrun. fold latched in Hrun.
  split; [exact Hrun |].
  subst r'. rewrite Hrun. simpl.
  repeat split; unfold updateTransferTimings;
    destruct (sample_accepted _ _); reflexivity.
Qed.

(** An instance of C8: a single-frame transfer on a new receiver. *)
Lemma addFrame_single_frame_witness :
  fst (fst (@addFrame Demo.config _ (Demo.StaticTransferBuffer 64)
              (@initial Demo.config) Demo.frame_s Demo.empty_tba))
  = RESULT_SINGLE_FRAME.
Proof.
  assert (Hadm : @frame_passes Demo.config (@initial Demo.config)
                   Demo.frame_s = true) by (vm_compute; reflexivity).
  destruct (@addFrame_single_frame Demo.config _
              (Demo.StaticTransferBuffer 64) (@initial Demo.config)
              Demo.frame_s Demo.empty_tba eq_refl eq_refl Hadm)
    as [Hrun _].
  rewrite Hrun. reflexivity.
Defined.

(** ** Writing the payload *)

(** The two masked bytes combined with [|] and [<<] are the little-endian
    value. *)
Lemma crc_of_payload_le16 (payload : list Z) :
  crc_of_payload payload = le16 payload.
Proof.
  unfold crc_of_payload, le16.
  set (lo := nth 0 payload 0). set (hi := nth 1 payload 0).
  change 255 with (Z.ones 8).
  rewrite !Z.land_ones by lia.
  change (2 ^ 8) with 256.
  rewrite Z.shiftl_mul_pow2 by lia. change (2 ^ 8) with 256.
  assert (Hlo : 0 <= lo mod 256 < 256) by (apply Z.mod_pos_bound; lia).
  rewrite <- Z.lxor_lor, <- Z.add_nocarry_lxor.
  - lia.
  - apply Z.bits_inj'. intros n Hn.
    rewrite Z.land_spec, Z.bits_0.
    destruct (Z.lt_ge_cases n 8) as [Hlt | Hge].
    + rewrite <- (Z.shiftl_mul_pow2 _ 8), Z.shiftl_spec_low by lia.
      apply andb_false_r.
    + change 256 with (2 ^ 8). rewrite Z.mod_pow2_bits_high by lia.
      reflexivity.
  - apply Z.bits_inj'. intros n Hn.
    rewrite Z.land_spec, Z.bits_0.
    destruct (Z.lt_ge_cases n 8) as [Hlt | Hge].
    + rewrite <- (Z.shiftl_mul_pow2 _ 8), Z.shiftl_spec_low by lia.
      apply andb_false_r.
    + change 256 with (2 ^ 8). rewrite Z.mod_pow2_bits_high by lia.
      reflexivity.
Qed.

Lemma skipn_CRC_LEN_length (payload : list Z) :
  CRC_LEN <= Z.of_nat (length payload) ->
  Z.of_nat (length (skipn 2 payload)) = Z.of_nat (length payload) - CRC_LEN.
Proof.
  unfold CRC_LEN. intros Hlen. rewrite length_skipn. lia.
Qed.

(** Where [receive] calls [writePayload] on a first frame, [validate] has
    seen to it that the CRC header is there. *)
Lemma validate_crc_present `{Config} (r : TransferReceiver) (frame : RxFrame) :
  validate r frame = true ->
  isFirstFrame frame = true -> isLastFrame frame = false ->
  CRC_LEN <= getPayloadLen frame.
Proof.
  unfold validate. intros Hvalid Hfirst Hlast.
  destruct (negb (iface_index_ r =? getIfaceIndex frame)); [discriminate |].
  rewrite Hfirst, Hlast in Hvalid. simpl in Hvalid.
  destruct (Z.ltb_spec (getPayloadLen frame) CRC_LEN); [discriminate | assumption].
Qed.

(** The guard [writePayload] keeps for a first frame too short to hold the
    CRC header: nothing is read, written or changed. *)
Lemma writePayload_short_first_frame {B} `{TransferBufferBase B}
      (r : TransferReceiver) (frame : RxFrame) (buf : B) :
  isFirstFrame frame = true -> getPayloadLen frame < CRC_LEN ->
  writePayload r frame buf = (false, r, buf).
Proof.
  intros Hfirst Hshort. unfold writePayload. rewrite Hfirst.
  apply Z.ltb_lt in Hshort. now rewrite Hshort.
Qed.

(** C7: [writePayload] on a first frame stores the first two payload bytes,
    read as a little-endian 16-bit value, in the CRC and writes the other
    [payload_len - 2] bytes at the write cursor; on any other frame it
    leaves the CRC alone and writes the whole payload at the write cursor.
    Either way it succeeds exactly when the buffer reports the requested
    count; the cursor then advances by that count, and stays where it was
    on failure.  No other member changes. *)
Theorem writePayload_effect {B} `{TransferBufferBase B}
        (r : TransferReceiver) (frame : RxFrame) (buf : B) :
  (isFirstFrame frame = true -> CRC_LEN <= getPayloadLen frame) ->
  let data :=
    if isFirstFrame frame then skipn 2 (getPayload frame)
    else getPayload frame in
  let requested :=
    if isFirstFrame frame then getPayloadLen frame - CRC_LEN
    else getPayloadLen frame in
  let res := fst (write buf (buffer_write_pos_ r) data) in
  let '(ok, r', buf') := writePayload r frame buf in
  Z.of_nat (length data) = requested /\
  buf' = snd (write buf (buffer_write_pos_ r) data) /\
  (ok = true <-> res = requested) /\
  this_transfer_crc_ r'
  = (if isFirstFrame frame then le16 (getPayload frame)
     else this_transfer_crc_ r) /\
  buffer_write_pos_ r'
  = (if ok then buffer_write_pos_ r + requested else buffer_write_pos_ r) /\
  set_buffer_write_pos 0 (set_this_transfer_crc 0 r')
  = set_buffer_write_pos 0 (set_this_transfer_crc 0 r).
Proof.
  intros Hcrc data requested res. subst data requested res.
  unfold writePayload.
  destruct (isFirstFrame frame).
  - specialize (Hcrc eq_refl).
    destruct (Z.ltb_spec (getPayloadLen frame) CRC_LEN) as [Hlt | _]; [lia |].
    simpl buffer_write_pos_.
    destruct (write buf (buffer_write_pos_ r) (skipn 2 (getPayload frame)))
      as [res buf'].
    simpl fst; simpl snd.
    split; [apply skipn_CRC_LEN_length, Hcrc |].
    split; [reflexivity |].
    split; [apply Z.eqb_eq |].
    destruct (res =? getPayloadLen frame - CRC_LEN); simpl;
      rewrite crc_of_payload_le16; auto.
  - destruct (write buf (buffer_write_pos_ r) (getPayload frame))
      as [res buf'].
    simpl fst; simpl snd.
    split; [reflexivity |].
    split; [reflexivity |].
    split; [apply Z.eqb_eq |].
    destruct (res =? getPayloadLen frame); simpl; auto.
Qed.

(** An instance of C7: the first frame of the three-frame transfer. *)
Lemma writePayload_effect_witness :
  this_transfer_crc_
    (snd (fst (@writePayload _ (Demo.StaticTransferBuffer 64)
                 (@initial Demo.config) Demo.frame_a0 []))) = 4660.
Proof.
  pose proof (@writePayload_effect _ (Demo.StaticTransferBuffer 64)
                (@initial Demo.config) Demo.frame_a0 []) as Heffect.
  cbv zeta in Heffect.
  destruct (@writePayload _ (Demo.StaticTransferBuffer 64)
              (@initial Demo.config) Demo.frame_a0 [])
    as [[ok r'] buf'].
  destruct Heffect as (_ & _ & _ & Hcrc & _).
  - intros _. vm_compute. congruence.
  - simpl. rewrite Hcrc. reflexivity.
Defined.

(** ** Frames that leave the receiver alone *)

Section Dropped.

Context {cfg : Config} {B : Type} {buffer : TransferBufferBase B}.

(** Without a restart, a frame that [validate] refuses changes nothing. *)
Lemma addFrame_no_restart_invalid (r : TransferReceiver) (frame : RxFrame)
      (tba : TransferBufferAccessor B) :
  need_restart r frame = false ->
  validate r frame = false ->
  addFrame r frame tba = (RESULT_NOT_COMPLETE, r, tba).
Proof.
  intros Hrestart Hvalid. unfold addFrame.
  destruct (timestamp_rejected r frame); [reflexivity |].
  rewrite Hrestart. cbv iota beta. now rewrite Hvalid.
Qed.

Lemma validate_iface (r : TransferReceiver) (frame : RxFrame) :
  validate r frame = true -> iface_index_ r = getIfaceIndex frame.
Proof.
  unfold validate.
  destruct (Z.eqb_spec (iface_index_ r) (getIfaceIndex frame));
    [auto | discriminate].
Qed.

Lemma validate_index (r : TransferReceiver) (frame : RxFrame) :
  validate r frame = true -> getFrameIndex frame = next_frame_index_ r.
Proof.
  unfold validate. intros Hvalid.
  repeat match type of Hvalid with
         | (if ?c then false else _) = true =>
             destruct c eqn:?; [discriminate |]
         end.
  match goal with
  | Hidx : negb (_ =? _) = false |- _ =>
      apply negb_false_iff, Z.eqb_eq in Hidx; exact Hidx
  end.
Qed.

Lemma validate_same_tid (r : TransferReceiver) (frame : RxFrame) :
  validate r frame = true -> getTidRelation r frame = TID_SAME.
Proof.
  unfold validate. intros Hvalid.
  repeat match type of Hvalid with
         | (if ?c then false else _) = true =>
             destruct c eqn:?; [discriminate |]
         end.
  match goal with
  | Hrel : negb (TidRelation_eqb _ _) = false |- _ =>
      apply negb_false_iff, TidRelation_eqb_eq in Hrel; exact Hrel
  end.
Qed.

(** A frame with a REPEAT transfer ID, on an initialized receiver that has
    not timed out, is dropped and changes nothing. *)
Lemma addFrame_repeat_dropped (r : TransferReceiver) (frame : RxFrame)
      (tba : TransferBufferAccessor B) :
  isInitialized r = true ->
  isTimedOut r (getMonotonicTimestamp frame) = false ->
  getTidRelation r frame = TID_REPEAT ->
  addFrame r frame tba = (RESULT_NOT_COMPLETE, r, tba).
Proof.
  intros Hinit Htimeout Hrel.
  apply addFrame_no_restart_invalid.
  - unfold need_restart. rewrite Hinit, Htimeout, Hrel. simpl.
    now rewrite !andb_false_r.
  - destruct (validate r frame) eqn:Hvalid; [| reflexivity].
    apply validate_same_tid in Hvalid. congruence.
Qed.

(** What a completed transfer leaves behind: the interface of its last
    frame, and the expected transfer ID one past that frame's. *)
Lemma addFrame_completed (r : TransferReceiver) (frame : RxFrame)
      (tba : TransferBufferAccessor B) :
  0 <= BITLEN ->
  fst (fst (addFrame r frame tba)) <> RESULT_NOT_COMPLETE ->
  iface_index_ (snd (fst (addFrame r frame tba))) = getIfaceIndex frame /\
  tid_ (snd (fst (addFrame r frame tba)))
  = TransferID.increment (getTransferID frame).
Proof.
  intros Hbits Hcode.
  assert (Hstep : forall r0 tba0,
             validate r0 frame = true ->
             fst (fst (receive r0 frame tba0)) <> RESULT_NOT_COMPLETE ->
             iface_index_ (snd (fst (receive r0 frame tba0))) = getIfaceIndex frame /\
             tid_ (snd (fst (receive r0 frame tba0)))
             = TransferID.increment (getTransferID frame)).
  { intros r0 tba0 Hvalid.
    pose proof (validate_iface _ _ Hvalid) as Hiface.
    pose proof (validate_same_tid _ _ Hvalid) as Hsame.
    apply getTidRelation_same in Hsame.
    assert (Htid : TransferID.increment (tid_ r0)
                   = TransferID.increment (getTransferID frame)).
    { unfold TransferID.forwardDistance in Hsame.
      unfold TransferID.increment.
      assert (Hpow : 0 < 2 ^ BITLEN) by now apply Z.pow_pos_nonneg.
      apply Z.mod_divide in Hsame; [| lia].
      destruct Hsame as [k Hk].
      replace (getTransferID frame + 1)
        with (tid_ r0 + 1 + k * 2 ^ BITLEN) by lia.
      now rewrite Z.mod_add by lia. }
    unfold receive.
    set (r1 := if isFirstFrame frame then _ else r0).
    assert (Hr1 : iface_index_ r1 = iface_index_ r0 /\ tid_ r1 = tid_ r0)
      by (subst r1; destruct (isFirstFrame frame); auto).
    destruct Hr1 as [Hi1 Ht1]. clearbody r1.
    destruct (isFirstFrame frame && isLastFrame frame).
    - intros _. simpl. unfold updateTransferTimings.
      destruct (sample_accepted _ _); simpl; rewrite Hi1, Ht1; auto.
    - destruct (match tba_access tba0 with Some b => _ | None => _ end)
        as [[b |] tba']; [| simpl; congruence].
      unfold writePayload.
      destruct (isFirstFrame frame);
        [destruct (getPayloadLen frame <? CRC_LEN); [simpl; congruence |] |];
        destruct (write _ _ _) as [res b'];
        destruct (res =? _); simpl; try congruence;
        destruct (isLastFrame frame); simpl; try congruence;
        intros _; unfold updateTransferTimings;
        destruct (sample_accepted _ _); simpl; rewrite Hi1, Ht1; auto. }
  revert Hcode. unfold addFrame.
  destruct (timestamp_rejected r frame); [simpl; congruence |].
  destruct (need_restart r frame).
  - destruct (isFirstFrame frame) eqn:Hfirst; simpl negb; cbv iota beta;
      [| simpl; congruence].
    destruct (validate (restart r frame) frame) eqn:Hvalid; simpl negb;
      cbv iota; [| simpl; congruence].
    apply Hstep, Hvalid.
  - cbv iota beta.
    destruct (validate r frame) eqn:Hvalid; simpl negb; cbv iota;
      [| simpl; congruence].
    apply Hstep, Hvalid.
Qed.

Lemma addFrames_fixed (r : TransferReceiver) (frame : RxFrame)
      (tba : TransferBufferAccessor B) (n : nat) :
  addFrame r frame tba = (RESULT_NOT_COMPLETE, r, tba) ->
  replay n r tba frame = (repeat RESULT_NOT_COMPLETE n, r, tba).
Proof.
  intros Hfixed. unfold replay.
  induction n as [| n IH]; simpl; [reflexivity |].
  now rewrite Hfixed, IH.
Qed.

End Dropped.

(** C2, as the code has it: while a multi-frame transfer is in progress on
    interface A and is not stale (neither the receiver timeout nor the
    twice-the-interval condition holds), a first frame with a FUTURE
    transfer ID arriving on another interface B is dropped: [addFrame]
    returns NOT_COMPLETE, the receiver stays on interface A's transfer and
    the accessor keeps interface A's partially filled buffer. *)
Theorem addFrame_other_interface_dropped `{Config} {B} `{TransferBufferBase B}
        (r : TransferReceiver) (frame : RxFrame)
        (tba : TransferBufferAccessor B) (partial : B) :
  isInitialized r = true ->
  0 < next_frame_index_ r ->
  tba_held tba = Some partial ->
  isTimedOut r (getMonotonicTimestamp frame) = false ->
  iface_timed_out r frame = false ->
  isFirstFrame frame = true ->
  getTidRelation r frame = TID_FUTURE ->
  getIfaceIndex frame <> iface_index_ r ->
  addFrame r frame tba = (RESULT_NOT_COMPLETE, r, tba) /\
  iface_index_ (snd (fst (addFrame r frame tba))) <> getIfaceIndex frame /\
  tba_held (snd (addFrame r frame tba)) = Some partial.
Proof.
  intros Hinit _ Hheld Htimeout Hstale _ _ Hiface.
  assert (Hrun : addFrame r frame tba = (RESULT_NOT_COMPLETE, r, tba)).
  { apply addFrame_no_restart_invalid.
    - unfold need_restart. rewrite Hinit, Htimeout, Hstale.
      apply Z.eqb_neq in Hiface. now rewrite Hiface.
    - unfold validate.
      destruct (Z.eqb_spec (iface_index_ r) (getIfaceIndex frame));
        [congruence | reflexivity]. }
  rewrite Hrun. simpl. auto.
Qed.

(** An instance of C2 as the code has it: the first frame of the
    three-frame transfer has been received on interface 0, and 50 us later
    the first frame of the next transfer arrives on interface 1. *)
Lemma addFrame_other_interface_dropped_witness :
  let '(_, r, tba) :=
    @addFrame Demo.config _ (Demo.StaticTransferBuffer 64)
      (@initial Demo.config) Demo.frame_a0 Demo.empty_tba in
  @addFrame Demo.config _ (Demo.StaticTransferBuffer 64)
    r Demo.frame_c0 tba = (RESULT_NOT_COMPLETE, r, tba).
Proof.
  destruct (@addFrame Demo.config _ (Demo.StaticTransferBuffer 64)
              (@initial Demo.config) Demo.frame_a0 Demo.empty_tba)
    as [[code r] tba] eqn:Hrun.
  vm_compute in Hrun. injection Hrun as _ Hr Htba. subst r tba.
  apply (@addFrame_other_interface_dropped Demo.config _
           (Demo.StaticTransferBuffer 64) _ Demo.frame_c0 _ [1; 2; 3]);
    vm_compute; congruence.
Defined.

(** C2 as written does not hold.  The first frame of a three-frame
    transfer has been received on interface 0; 50 us later the first frame
    of the next transfer arrives on interface 1.  Every premise of the
    scenario holds (transfer in progress with a partially filled buffer, no
    timeout, not stale, a first frame with a FUTURE transfer ID on another
    interface), and the receiver neither switches to interface 1 nor
    releases the buffer. *)
Lemma addFrame_other_interface_switch_counterexample :
  let '(_, r, tba) :=
    @addFrame Demo.config _ (Demo.StaticTransferBuffer 64)
      (@initial Demo.config) Demo.frame_a0 Demo.empty_tba in
  (@isInitialized Demo.config r = true /\
   next_frame_index_ r = 1 /\
   iface_index_ r = 0 /\
   tba_held tba = Some [1; 2; 3] /\
   @isTimedOut Demo.config r (getMonotonicTimestamp Demo.frame_c0) = false /\
   iface_timed_out r Demo.frame_c0 = false /\
   isFirstFrame Demo.frame_c0 = true /\
   @getTidRelation Demo.config r Demo.frame_c0 = TID_FUTURE /\
   getIfaceIndex Demo.frame_c0 = 1) /\
  let '(code, r', tba') :=
    @addFrame Demo.config _ (Demo.StaticTransferBuffer 64)
      r Demo.frame_c0 tba in
  code = RESULT_NOT_COMPLETE /\
  iface_index_ r' <> getIfaceIndex Demo.frame_c0 /\
  tid_ r' <> getTransferID Demo.frame_c0 /\
  tba_held tba' = Some [1; 2; 3].
Proof.
  vm_compute. repeat split; congruence.
Qed.

(** C6, as the code has it: a frame carrying the transfer ID of the
    transfer that has just completed, given to a receiver that has not
    timed out at the frame's timestamp, is dropped with NOT_COMPLETE and
    leaves the receiver and the buffer accessor exactly as they were,
    however often it is replayed and whatever its frame index. *)
Theorem replay_after_completion_dropped `{Config} {B} `{TransferBufferBase B}
        (r0 : TransferReceiver) (tba0 : TransferBufferAccessor B)
        (done frame : RxFrame) (n : nat) :
  0 < BITLEN ->
  getIfaceIndex done <> IFACE_INDEX_NOTSET ->
  fst (fst (addFrame r0 done tba0)) <> RESULT_NOT_COMPLETE ->
  getTransferID frame = getTransferID done ->
  let r := snd (fst (addFrame r0 done tba0)) in
  let tba := snd (addFrame r0 done tba0) in
  isTimedOut r (getMonotonicTimestamp frame) = false ->
  replay n r tba frame = (repeat RESULT_NOT_COMPLETE n, r, tba).
Proof.
  intros Hbits Hreal Hdone Htid r tba Htimeout.
  destruct (addFrame_completed r0 done tba0 (Z.lt_le_incl _ _ Hbits) Hdone)
    as [Hiface Hnext].
  fold r in Hiface, Hnext.
  apply addFrames_fixed, addFrame_repeat_dropped.
  - unfold isInitialized. rewrite Hiface.
    apply negb_true_iff, Z.eqb_neq, Hreal.
  - exact Htimeout.
  - apply getTidRelation_repeat.
    rewrite Hnext, Htid, forwardDistance_back, half_circle by lia.
    pose proof (half_circle_double Hbits) as Hdouble.
    assert (0 < 2 ^ (BITLEN - 1)) by (apply Z.pow_pos_nonneg; lia).
    lia.
Qed.

(** An instance of C6 as the code has it: the single frame of a completed
    transfer, replayed three times. *)
Lemma replay_after_completion_dropped_witness :
  let run :=
    @addFrame Demo.config _ (Demo.StaticTransferBuffer 64)
      (@initial Demo.config) Demo.frame_s Demo.empty_tba in
  @replay Demo.config _ (Demo.StaticTransferBuffer 64) 3
    (snd (fst run)) (snd run) Demo.frame_s
  = (repeat RESULT_NOT_COMPLETE 3, snd (fst run), snd run).
Proof.
  intros run.
  apply (@replay_after_completion_dropped Demo.config _
           (Demo.StaticTransferBuffer 64) (@initial Demo.config)
           Demo.empty_tba Demo.frame_s Demo.frame_s 3);
    vm_compute; congruence.
Defined.

(** C6 as written does not hold: after a single-frame transfer, a two-frame
    transfer completes with its last frame arriving late (the interval
    estimate shrinks on completion); the very same last frame, replayed,
    now finds the receiver timed out.  It returns NOT_COMPLETE but restarts
    the receiver: the CRC of the completed transfer is reset and its buffer
    released. *)
Lemma replay_after_completion_counterexample :
  let '(codes, r, tba) :=
    @addFrames Demo.config _ (Demo.StaticTransferBuffer 64)
      (@initial Demo.config) Demo.empty_tba
      [Demo.frame_s; Demo.frame_b0; Demo.frame_b1] in
  (codes = [RESULT_SINGLE_FRAME; RESULT_NOT_COMPLETE; RESULT_COMPLETE] /\
   tid_ r = 2 /\ getTransferID Demo.frame_b1 = 1 /\
   next_frame_index_ r = 0 /\ getFrameIndex Demo.frame_b1 = 1) /\
  let '(code', r', tba') :=
    @addFrame Demo.config _ (Demo.StaticTransferBuffer 64)
      r Demo.frame_b1 tba in
  code' = RESULT_NOT_COMPLETE /\
  r' <> r /\
  this_transfer_crc_ r = 43981 /\ this_transfer_crc_ r' = 0 /\
  tba_held tba = Some [1; 2; 3; 4] /\ tba_held tba' = None.
Proof.
  vm_compute. repeat split; congruence.
Qed.

(** ** Assembly of a whole transfer *)

Section Assembly.

Context {cfg : Config} {B : Type} {buffer : TransferBufferBase B}.

Lemma updateTransferTimings_cursor (r : TransferReceiver) :
  next_frame_index_ (updateTransferTimings r) = next_frame_index_ r /\
  buffer_write_pos_ (updateTransferTimings r) = buffer_write_pos_ r.
Proof.
  unfold updateTransferTimings. destruct (sample_accepted _ _); auto.
Qed.

Lemma prepareForNextTransfer_cursor (r : TransferReceiver) :
  cursor_follows_index (prepareForNextTransfer r).
Proof. unfold cursor_follows_index. simpl. split; [lia | reflexivity]. Qed.

Lemma writePayload_index (r : TransferReceiver) (frame : RxFrame) (buf : B) :
  next_frame_index_ (snd (fst (writePayload r frame buf)))
  = next_frame_index_ r.
Proof.
  unfold writePayload.
  destruct (isFirstFrame frame).
  - destruct (getPayloadLen frame <? CRC_LEN); [reflexivity |].
    destruct (write _ _ _) as [res buf']. simpl.
    destruct (res =? _); reflexivity.
  - destruct (write _ _ _) as [res buf']. simpl.
    destruct (res =? _); reflexivity.
Qed.

Lemma receive_cursor (r : TransferReceiver) (frame : RxFrame)
      (tba : TransferBufferAccessor B) :
  0 <= next_frame_index_ r ->
  cursor_follows_index (snd (fst (receive r frame tba))).
Proof.
  intros Hidx. unfold receive.
  set (r0 := if isFirstFrame frame then _ else r).
  assert (Hidx0 : 0 <= next_frame_index_ r0)
    by (subst r0; destruct (isFirstFrame frame); assumption).
  clearbody r0.
  destruct (isFirstFrame frame && isLastFrame frame).
  - simpl. unfold cursor_follows_index. simpl. split; [lia | reflexivity].
  - destruct (match tba_access tba with Some b => _ | None => _ end)
      as [[b |] tba']; [| apply prepareForNextTransfer_cursor].
    pose proof (writePayload_index r0 frame b) as Hw.
    destruct (writePayload r0 frame b) as [[ok r1] b']. simpl in Hw.
    destruct ok; simpl; [| apply prepareForNextTransfer_cursor].
    destruct (isLastFrame frame); simpl;
      [apply prepareForNextTransfer_cursor |].
    unfold cursor_follows_index. simpl. lia.
Qed.

Lemma restart_cursor (r : TransferReceiver) (frame : RxFrame) :
  next_frame_index_ (restart r frame) = 0 /\
  buffer_write_pos_ (restart r frame) = 0.
Proof. split; reflexivity. Qed.

Lemma addFrame_cursor (r : TransferReceiver) (frame : RxFrame)
      (tba : TransferBufferAccessor B) :
  cursor_follows_index r ->
  cursor_follows_index (snd (fst (addFrame r frame tba))).
Proof.
  intros Hinv. unfold addFrame.
  destruct (timestamp_rejected r frame); [exact Hinv |].
  destruct (need_restart r frame).
  - destruct (isFirstFrame frame); simpl negb; cbv iota beta.
    + destruct (validate (restart r frame) frame); simpl negb; cbv iota.
      * apply receive_cursor. simpl. lia.
      * simpl. unfold cursor_follows_index. simpl. split; [lia | reflexivity].
    + simpl. unfold cursor_follows_index. simpl. split; [lia | reflexivity].
  - cbv iota beta. destruct (validate r frame); simpl negb; cbv iota.
    + apply receive_cursor, Hinv.
    + exact Hinv.
Qed.

(** On every receiver reached from the initial one, the write cursor is 0
    whenever the expected frame index is. *)
Lemma reachable_cursor (calls : list (RxFrame * TransferBufferAccessor B)) :
  forall r, cursor_follows_index r ->
            cursor_follows_index (addFrames_any r calls).
Proof.
  induction calls as [| [frame tba] calls IH]; intros r Hinv; simpl.
  - exact Hinv.
  - apply IH, addFrame_cursor, Hinv.
Qed.

Lemma initial_cursor : cursor_follows_index initial.
Proof. unfold cursor_follows_index. simpl. split; [lia | reflexivity]. Qed.

Lemma frame_passes_parts (r : TransferReceiver) (frame : RxFrame) :
  frame_passes r frame = true ->
  timestamp_rejected r frame = false /\
  (need_restart r frame = true -> isFirstFrame frame = true) /\
  validate (admission_state r frame) frame = true.
Proof.
  unfold frame_passes. intros Hadm.
  apply andb_prop in Hadm as [Hadm Hvalid].
  apply andb_prop in Hadm as [Hguard Hearly].
  apply negb_true_iff in Hguard.
  repeat split; try assumption.
  intros Hrestart. rewrite Hrestart in Hearly. exact Hearly.
Qed.

(** A frame that passes goes to [receive], on the receiver and the accessor
    the admission step leaves. *)
Lemma addFrame_passes (r : TransferReceiver) (frame : RxFrame)
      (tba : TransferBufferAccessor B) :
  frame_passes r frame = true ->
  addFrame r frame tba
  = receive (admission_state r frame) frame
            (if need_restart r frame then tba_remove tba else tba).
Proof.
  intros Hadm. apply frame_passes_parts in Hadm as (Hguard & Hearly & Hvalid).
  unfold addFrame, admission_state in *. rewrite Hguard.
  destruct (need_restart r frame).
  - rewrite (Hearly eq_refl). simpl negb. cbv iota beta.
    now rewrite Hvalid.
  - cbv iota beta. now rewrite Hvalid.
Qed.

(** A continuation frame whose payload the held buffer takes in full. *)
Lemma addFrame_continuation (r : TransferReceiver) (frame : RxFrame)
      (tba : TransferBufferAccessor B) (b : B) :
  isFirstFrame frame = false ->
  frame_passes r frame = true ->
  tba_held tba = Some b ->
  fst (write b (buffer_write_pos_ r) (getPayload frame)) = getPayloadLen frame ->
  let written :=
    set_buffer_write_pos (buffer_write_pos_ r + getPayloadLen frame) r in
  let b' := snd (write b (buffer_write_pos_ r) (getPayload frame)) in
  let counted := set_next_frame_index (next_frame_index_ written + 1) written in
  writePayload r frame b = (true, written, b') /\
  addFrame r frame tba
  = (if isLastFrame frame then RESULT_COMPLETE else RESULT_NOT_COMPLETE,
     if isLastFrame frame
     then prepareForNextTransfer (updateTransferTimings counted)
     else counted,
     tba_written tba b').
Proof.
  intros Hfirst Hadm Hheld Hwrite written b' counted.
  assert (Hwp : writePayload r frame b = (true, written, b')).
  { unfold writePayload. rewrite Hfirst.
    subst written b'.
    destruct (write b (buffer_write_pos_ r) (getPayload frame)) as [res b1].
    simpl in Hwrite. subst res. now rewrite Z.eqb_refl. }
  split; [exact Hwp |].
  rewrite (addFrame_passes r frame tba Hadm).
  apply frame_passes_parts in Hadm as (_ & Hearly & _).
  unfold admission_state.
  destruct (need_restart r frame); [specialize (Hearly eq_refl); congruence |].
  unfold receive. rewrite Hfirst. simpl andb. cbv iota.
  unfold tba_access. rewrite Hheld. rewrite Hwp. simpl negb. cbv iota.
  destruct (isLastFrame frame); reflexivity.
Qed.

(** The first frame of a multi-frame transfer, with a buffer that takes
    what follows the CRC header. *)
Lemma addFrame_first_of_many (r : TransferReceiver) (frame : RxFrame)
      (tba : TransferBufferAccessor B) (b : B) :
  cursor_follows_index r ->
  isFirstFrame frame = true -> isLastFrame frame = false ->
  getFrameIndex frame = 0 ->
  frame_passes r frame = true ->
  buffer_for_first_frame r frame tba = Some b ->
  fst (write b 0 (skipn 2 (getPayload frame)))
  = Z.of_nat (length (skipn 2 (getPayload frame))) ->
  exists r1 tba1,
    addFrame r frame tba = (RESULT_NOT_COMPLETE, r1, tba1) /\
    tba_held tba1 = Some (snd (write b 0 (skipn 2 (getPayload frame)))) /\
    buffer_write_pos_ r1 = getPayloadLen frame - CRC_LEN.
Proof.
  intros Hinv Hfirst Hlast Hzero Hadm Hbuf Hwrite.
  rewrite (addFrame_passes r frame tba Hadm).
  apply frame_passes_parts in Hadm as (_ & _ & Hvalid).
  pose proof (validate_crc_present _ _ Hvalid Hfirst Hlast) as Hcrc.
  assert (Hpos : buffer_write_pos_ (admission_state r frame) = 0).
  { apply validate_index in Hvalid. revert Hvalid. unfold admission_state.
    destruct (need_restart r frame); [reflexivity |].
    intros Hidx. apply Hinv. congruence. }
  unfold buffer_for_first_frame in Hbuf.
  set (r0 := admission_state r frame) in *.
  set (tba0 := if need_restart r frame then tba_remove tba else tba) in *.
  unfold receive. rewrite Hfirst, Hlast. simpl andb. cbv iota.
  assert (Hget : exists tba',
             (match tba_access tba0 with
              | Some b0 => (Some b0, tba0)
              | None => tba_create tba0
              end) = (Some b, tba')).
  { destruct (tba_access tba0) as [b0 |].
    - injection Hbuf as ->. now exists tba0.
    - unfold tba_create in *. simpl in Hbuf. rewrite Hbuf. eauto. }
  destruct Hget as [tba' Hget]. rewrite Hget.
  unfold writePayload. rewrite Hfirst.
  destruct (Z.ltb_spec (getPayloadLen frame) CRC_LEN) as [Hlt | _]; [lia |].
  simpl buffer_write_pos_. rewrite Hpos.
  destruct (write b 0 (skipn 2 (getPayload frame))) as [res b1].
  cbn [fst] in Hwrite. cbn [snd].
  rewrite skipn_CRC_LEN_length in Hwrite by exact Hcrc.
  unfold getPayloadLen. rewrite Hwrite, Z.eqb_refl. simpl negb. cbv iota.
  eexists _, _. split; [reflexivity |].
  split; [reflexivity |]. simpl. lia.
Qed.

End Assembly.

Section Streams.

Context {cfg : Config} {B : Type} {buffer : TransferBufferBase B}.

Lemma addFrames_app (front back : list RxFrame) :
  forall r (tba : TransferBufferAccessor B),
    addFrames r tba (front ++ back)
    = let '(codes1, r1, tba1) := addFrames r tba front in
      let '(codes2, r2, tba2) := addFrames r1 tba1 back in
      (codes1 ++ codes2, r2, tba2).
Proof.
  induction front as [| frame front IH]; intros r tba; simpl.
  - destruct (addFrames r tba back) as [[codes2 r2] tba2]. reflexivity.
  - destruct (addFrame r frame tba) as [[code r1] tba1].
    rewrite IH.
    destruct (addFrames r1 tba1 front) as [[codes1 r2] tba2].
    destruct (addFrames r2 tba2 back) as [[codes2 r3] tba3]. reflexivity.
Qed.

Lemma total_payload_len_app (front back : list RxFrame) :
  total_payload_len (front ++ back)
  = total_payload_len front + total_payload_len back.
Proof.
  induction front as [| frame front IH]; simpl; [reflexivity |].
  rewrite IH. lia.
Qed.

(** The continuation frames before the closing one: each is taken, and the
    cursor has moved by their payload lengths when the closing frame
    arrives. *)
Lemma addFrames_continuations (last : RxFrame) (middle : list RxFrame) :
  forall r (tba : TransferBufferAccessor B) (b : B),
    Forall (fun frame => isFirstFrame frame = false /\
                         isLastFrame frame = false) middle ->
    tba_held tba = Some b ->
    stream_passes r tba (middle ++ [last]) = true ->
    writes_accepted b (buffer_write_pos_ r)
                    (map getPayload middle ++ [getPayload last]) ->
    exists r1 tba1 b1,
      addFrames r tba middle
      = (repeat RESULT_NOT_COMPLETE (length middle), r1, tba1) /\
      tba_held tba1 = Some b1 /\
      buffer_write_pos_ r1 = buffer_write_pos_ r + total_payload_len middle /\
      frame_passes r1 last = true /\
      fst (write b1 (buffer_write_pos_ r1) (getPayload last))
      = getPayloadLen last.
Proof.
  induction middle as [| frame middle IH]; intros r tba b Hshape Hheld Hadm Hacc.
  - simpl in *. exists r, tba, b.
    apply andb_prop in Hadm as [Hadm _]. destruct Hacc as [Hacc _].
    repeat split; try assumption. lia.
  - inversion Hshape as [| ? ? [Hfirst Hlast] Hrest]; subst.
    simpl in Hadm, Hacc.
    apply andb_prop in Hadm as [Hadm Hstream].
    destruct Hacc as [Hwrite Hacc].
    destruct (addFrame_continuation r frame tba b Hfirst Hadm Hheld Hwrite)
      as [_ Hrun].
    rewrite Hlast in Hrun. rewrite Hrun in Hstream.
    simpl. rewrite Hrun.
    edestruct IH as (r1 & tba1 & b1 & Hruns & Hheld1 & Hpos & Hadm1 & Hlastw);
      [exact Hrest | | exact Hstream | exact Hacc |].
    + reflexivity.
    + rewrite Hruns. exists r1, tba1, b1.
      repeat split; try assumption.
      rewrite Hpos. simpl. unfold getPayloadLen. lia.
Qed.

End Streams.

(** C1, as the code has it: on a receiver reached from the initial one, a
    stream of frames of one transfer, in sequence and ending in a last
    frame, each frame passing admission and validation, gets exactly one
    result other than NOT_COMPLETE, for its last frame: SINGLE_FRAME when
    the transfer is a single frame, and, when the payload buffer is obtained
    for the first frame and takes every write in full, COMPLETE when it has
    several.  In that case the write cursor after the last write, the
    number of payload bytes committed to the buffer, is the sum of the
    frames' payload lengths minus the two bytes of the CRC header. *)
Theorem transfer_assembled `{Config} {B} `{TransferBufferBase B}
        (calls : list (RxFrame * TransferBufferAccessor B))
        (tba : TransferBufferAccessor B) :
  let r := addFrames_any initial calls in
  (forall frame,
     isFirstFrame frame = true -> isLastFrame frame = true ->
     stream_passes r tba [frame] = true ->
     fst (fst (addFrames r tba [frame])) = [RESULT_SINGLE_FRAME]) /\
  (forall first middle last b,
     multi_frame_transfer first middle last ->
     stream_passes r tba (first :: middle ++ [last]) = true ->
     buffer_for_first_frame r first tba = Some b ->
     writes_accepted b 0 (transfer_chunks first middle last) ->
     fst (fst (addFrames r tba (first :: middle ++ [last])))
     = repeat RESULT_NOT_COMPLETE (S (length middle)) ++ [RESULT_COMPLETE] /\
     exists r1 tba1 b1,
       addFrames r tba (first :: middle)
       = (repeat RESULT_NOT_COMPLETE (S (length middle)), r1, tba1) /\
       tba_held tba1 = Some b1 /\
       let '(ok, r2, b2) := writePayload r1 last b1 in
       ok = true /\
       buffer_write_pos_ r2
       = total_payload_len (first :: middle ++ [last]) - CRC_LEN /\
       addFrame r1 last tba1
       = (RESULT_COMPLETE,
          prepareForNextTransfer
            (updateTransferTimings
               (set_next_frame_index (next_frame_index_ r2 + 1) r2)),
          tba_written tba1 b2)).
Proof.
  intros r. split.
  - intros frame Hfirst Hlast Hadm. simpl in Hadm.
    apply andb_prop in Hadm as [Hadm _].
    simpl. now rewrite (single_frame_run r frame tba Hfirst Hlast Hadm).
  - intros first middle last b Hshape Hadm Hbuf Hacc.
    destruct Hshape as (Hfirst & Hnotlast & Hzero & Hmiddle & Hcont & Hlast).
    assert (Hinv : cursor_follows_index r)
      by (apply reachable_cursor, initial_cursor).
    simpl in Hadm. apply andb_prop in Hadm as [Hadm0 Hstream].
    unfold transfer_chunks in Hacc. cbn [writes_accepted] in Hacc.
    destruct Hacc as [Hwrite0 Hacc].
    destruct (addFrame_first_of_many r first tba b Hinv Hfirst Hnotlast Hzero
                Hadm0 Hbuf Hwrite0) as (r0 & tba0 & Hrun0 & Hheld0 & Hpos0).
    rewrite Hrun0 in Hstream.
    assert (Hcrc : CRC_LEN <= getPayloadLen first).
    { apply frame_passes_parts in Hadm0 as (_ & _ & Hvalid).
      exact (validate_crc_present _ _ Hvalid Hfirst Hnotlast). }
    rewrite skipn_CRC_LEN_length in Hacc by exact Hcrc.
    fold (getPayloadLen first) in Hacc.
    rewrite Z.add_0_l, <- Hpos0 in Hacc.
    destruct (addFrames_continuations last middle r0 tba0 _ Hmiddle Hheld0
                Hstream Hacc)
      as (r1 & tba1 & b1 & Hruns & Hheld1 & Hpos1 & Hadm1 & Hwrite1).
    destruct (addFrame_continuation r1 last tba1 b1 Hcont Hadm1 Hheld1 Hwrite1)
      as [Hwp Hrun1].
    rewrite Hlast in Hrun1.
    assert (Hfront : addFrames r tba (first :: middle)
                     = (repeat RESULT_NOT_COMPLETE (S (length middle)), r1, tba1)).
    { simpl. rewrite Hrun0, Hruns. reflexivity. }
    split.
    + change (first :: middle ++ [last]) with ((first :: middle) ++ [last]).
      rewrite addFrames_app, Hfront. simpl. rewrite Hrun1. reflexivity.
    + exists r1, tba1, b1. split; [exact Hfront |]. split; [exact Hheld1 |].
      rewrite Hwp. split; [reflexivity |]. split; [| exact Hrun1].
      simpl. rewrite Hpos1, Hpos0, total_payload_len_app. simpl. lia.
Qed.

(** An instance of C1 as the code has it: the three-frame transfer on a new
    receiver, with room in the buffer. *)
Lemma transfer_assembled_witness :
  fst (fst (@addFrames Demo.config _ (Demo.StaticTransferBuffer 64)
              (@initial Demo.config) Demo.empty_tba
              [Demo.frame_a0; Demo.frame_a1; Demo.frame_a2]))
  = [RESULT_NOT_COMPLETE; RESULT_NOT_COMPLETE; RESULT_COMPLETE].
Proof.
  destruct (@transfer_assembled Demo.config _
              (Demo.StaticTransferBuffer 64) [] Demo.empty_tba)
    as [_ Hmulti].
  destruct (Hmulti Demo.frame_a0 [Demo.frame_a1] Demo.frame_a2 [])
    as [Hcodes _].
  - unfold multi_frame_transfer. repeat split; repeat constructor.
  - vm_compute. reflexivity.
  - reflexivity.
  - simpl. repeat split; vm_compute; reflexivity.
  - exact Hcodes.
Defined.

(** C1 as written does not hold: the two frames below are one transfer, in
    sequence, ending in a last frame, and each passes admission and
    validation; the buffer holds 4 bytes, takes the 3 of the first frame
    and refuses the 2 of the last, and [addFrame] returns NOT_COMPLETE for
    both frames. *)
Lemma transfer_assembled_counterexample :
  let frames := [Demo.frame_a0; Demo.frame_a1_last] in
  (@multi_frame_transfer Demo.frame_a0 [] Demo.frame_a1_last /\
   @stream_passes Demo.config _ (Demo.StaticTransferBuffer 4)
     (@initial Demo.config) Demo.empty_tba frames = true) /\
  fst (fst (@addFrames Demo.config _ (Demo.StaticTransferBuffer 4)
              (@initial Demo.config) Demo.empty_tba frames))
  = [RESULT_NOT_COMPLETE; RESULT_NOT_COMPLETE].
Proof.
  unfold multi_frame_transfer.
  repeat split; try constructor; vm_compute; reflexivity.
Qed.

(** The three-frame scenario in full: COMPLETE after the third frame, the
    buffer holds the data of the three frames in order, and the CRC is
    [0x1234]. *)
Example three_frame_transfer :
  @addFrames Demo.config _ (Demo.StaticTransferBuffer 64)
    (@initial Demo.config) Demo.empty_tba
    [Demo.frame_a0; Demo.frame_a1; Demo.frame_a2]
  = ([RESULT_NOT_COMPLETE; RESULT_NOT_COMPLETE; RESULT_COMPLETE],
     {| prev_transfer_ts_monotonic_ := 1000;
        this_transfer_ts_monotonic_ := 1000;
        first_frame_ts_utc_ := 0;
        transfer_interval_ := 500000;
        this_transfer_crc_ := 4660;
        buffer_write_pos_ := 0;
        tid_ := 1;
        iface_index_ := 0;
        next_frame_index_ := 0 |},
     {| tba_held := Some [1; 2; 3; 4; 5; 6]; tba_pool := Some [] |}).
Proof. vm_compute. reflexivity. Qed.

(** * Further properties *)

(** ** One call of [addFrame] as a transition *)

Section Transitions.

Context {cfg : Config} {B : Type} {buffer : TransferBufferBase B}.

Lemma Transition_eq (r : TransferReceiver) (frame : RxFrame)
      (code : ResultCode) (r1 r2 : TransferReceiver) :
  Transition r frame code r1 -> r2 = r1 -> Transition r frame code r2.
Proof. intros Hstep ->. exact Hstep. Qed.

Lemma receive_transition (r : TransferReceiver) (frame : RxFrame)
      (tba : TransferBufferAccessor B) :
  frame_passes r frame = true ->
  Transition r frame
    (fst (fst (receive (admission_state r frame) frame
                 (if need_restart r frame then tba_remove tba else tba))))
    (snd (fst (receive (admission_state r frame) frame
                 (if need_restart r frame then tba_remove tba else tba)))).
Proof.
  intros Hpass.
  set (r0 := admission_state r frame).
  set (tba0 := if need_restart r frame then tba_remove tba else tba).
  unfold receive.
  destruct (isFirstFrame frame && isLastFrame frame) eqn:Hsingle.
  - apply andb_prop in Hsingle as [Hfirst Hlast]. simpl.
    eapply Transition_eq; [now apply T_single |].
    unfold latch. rewrite Hfirst. reflexivity.
  - destruct (match tba_access tba0 with Some b => _ | None => _ end)
      as [[b |] tba1].
    + unfold writePayload.
      destruct (isFirstFrame frame) eqn:Hfirst.
      * destruct (Z.ltb_spec (getPayloadLen frame) CRC_LEN) as [Hshort | Hcrc].
        { simpl.
          eapply Transition_eq;
            [apply (T_abort r frame (this_transfer_crc_ r0));
             [assumption | now rewrite Hfirst | now left] |].
          unfold latch. rewrite Hfirst. reflexivity. }
        destruct (write b _ _) as [res b'].
        simpl in Hsingle.
        destruct (res =? getPayloadLen frame - CRC_LEN); simpl;
          rewrite ?Hsingle; simpl; rewrite crc_of_payload_le16.
        { eapply Transition_eq;
            [apply (T_progress r frame (le16 (getPayload frame))
                      (getPayloadLen frame - CRC_LEN));
             [assumption | assumption | left; auto] |].
          unfold latch. rewrite Hfirst. reflexivity. }
        { eapply Transition_eq;
            [apply (T_abort r frame (le16 (getPayload frame)));
             [assumption | now rewrite Hfirst | right; auto] |].
          unfold latch. rewrite Hfirst. reflexivity. }
      * destruct (write b _ _) as [res b'].
        destruct (res =? getPayloadLen frame); simpl.
        { destruct (isLastFrame frame) eqn:Hlast; simpl.
          - eapply Transition_eq;
              [apply (T_complete r frame (this_transfer_crc_ r0)
                        (getPayloadLen frame));
               [assumption | assumption | assumption | right; auto] |].
            unfold latch. rewrite Hfirst. reflexivity.
          - eapply Transition_eq;
              [apply (T_progress r frame (this_transfer_crc_ r0)
                        (getPayloadLen frame));
               [assumption | assumption | right; auto] |].
            unfold latch. rewrite Hfirst. reflexivity. }
        { eapply Transition_eq;
            [apply (T_abort r frame (this_transfer_crc_ r0));
             [assumption | now rewrite Hfirst | now left] |].
          unfold latch. rewrite Hfirst. reflexivity. }
    + simpl.
      eapply Transition_eq;
        [apply (T_abort r frame (this_transfer_crc_ r0));
         [assumption | assumption | now left] |].
      unfold latch. destruct (isFirstFrame frame); reflexivity.
Qed.

(** Every call of [addFrame] is one of the transitions. *)
Lemma addFrame_transition (r : TransferReceiver) (frame : RxFrame)
      (tba : TransferBufferAccessor B) :
  Transition r frame (fst (fst (addFrame r frame tba)))
             (snd (fst (addFrame r frame tba))).
Proof.
  destruct (frame_passes r frame) eqn:Hpass.
  - rewrite (addFrame_passes r frame tba Hpass).
    now apply receive_transition.
  - unfold frame_passes, admission_state in Hpass. unfold addFrame.
    destruct (timestamp_rejected r frame) eqn:Hguard;
      [apply T_dropped; now left |].
    destruct (need_restart r frame) eqn:Hrestart.
    + destruct (isFirstFrame frame) eqn:Hfirst; simpl negb; cbv iota beta.
      * simpl in Hpass. rewrite Hpass. simpl. now apply T_restart_invalid.
      * simpl. now apply T_restart_discard.
    + simpl in Hpass. cbv iota beta. rewrite Hpass. simpl.
      apply T_dropped. now right.
Qed.

(** A property kept by every transition from receivers that have it holds
    on every receiver reached by calls whose frames satisfy [Q]. *)
Lemma reachable_invariant (P : TransferReceiver -> Prop) (Q : RxFrame -> Prop) :
  (forall r frame code r',
      P r -> Q frame -> Transition r frame code r' -> P r') ->
  forall (calls : list (RxFrame * TransferBufferAccessor B)) r,
    P r -> frames_satisfy Q calls -> P (addFrames_any r calls).
Proof.
  intros Hstep calls.
  induction calls as [| [frame tba] calls IH]; intros r Hr Hcalls; simpl.
  - exact Hr.
  - inversion Hcalls as [| ? ? Hframe Hrest]; subst.
    apply IH; [| exact Hrest].
    exact (Hstep _ _ _ _ Hr Hframe (addFrame_transition r frame tba)).
Qed.

Lemma frames_satisfy_True
      (calls : list (RxFrame * TransferBufferAccessor B)) :
  frames_satisfy (fun _ => True) calls.
Proof. unfold frames_satisfy. induction calls; constructor; auto. Qed.

End Transitions.

(** ** Invariants of the receivers reached from the initial one *)

Lemma le16_range (payload : list Z) : 0 <= le16 payload < 65536.
Proof.
  unfold le16.
  assert (0 <= nth 0 payload 0 mod 256 < 256) by (apply Z.mod_pos_bound; lia).
  assert (0 <= nth 1 payload 0 mod 256 < 256) by (apply Z.mod_pos_bound; lia).
  lia.
Qed.

Lemma validate_terminated `{Config} (r : TransferReceiver) (frame : RxFrame) :
  validate r frame = true ->
  getFrameIndex frame = FRAME_INDEX_MAX -> isLastFrame frame = true.
Proof.
  unfold validate. intros Hvalid Hmax.
  destruct (negb (iface_index_ r =? getIfaceIndex frame)); [discriminate |].
  destruct (isFirstFrame frame && negb (isLastFrame frame) && _);
    [discriminate |].
  apply Z.eqb_eq in Hmax. rewrite Hmax in Hvalid.
  destruct (isLastFrame frame); [reflexivity | discriminate].
Qed.

Lemma written_count (frame : RxFrame) (crc c n : Z) :
  written frame crc c n -> 0 <= n <= getPayloadLen frame.
Proof.
  unfold written, CRC_LEN, getPayloadLen. intros [H | H]; lia.
Qed.

Lemma written_crc (frame : RxFrame) (crc c n : Z) :
  written frame crc c n -> 0 <= crc < 65536 -> 0 <= c < 65536.
Proof.
  intros [(_ & _ & -> & _) | (_ & -> & _)] Hcrc;
    [apply le16_range | exact Hcrc].
Qed.

(** The facts a frame that passes brings along. *)
Lemma frame_passes_facts `{Config} (r : TransferReceiver) (frame : RxFrame) :
  frame_passes r frame = true ->
  let r0 := admission_state r frame in
  (r0 = r \/ (need_restart r frame = true /\ r0 = restart r frame)) /\
  getMonotonicTimestamp frame <> 0 /\
  prev_transfer_ts_monotonic_ r <= getMonotonicTimestamp frame /\
  this_transfer_ts_monotonic_ r <= getMonotonicTimestamp frame /\
  getFrameIndex frame = next_frame_index_ r0 /\
  iface_index_ r0 = getIfaceIndex frame /\
  (getFrameIndex frame = FRAME_INDEX_MAX -> isLastFrame frame = true).
Proof.
  intros Hpass r0.
  apply frame_passes_parts in Hpass as (Hguard & _ & Hvalid).
  apply timestamp_accepted in Hguard as (Hnz & Hprev & Hthis).
  fold r0 in Hvalid.
  repeat split; try assumption.
  - subst r0. unfold admission_state.
    destruct (need_restart r frame); auto.
  - now apply validate_index.
  - now apply validate_iface.
  - now apply (validate_terminated r0).
Qed.

(** The facts of a passing frame unpacked, and the receiver seen by
    [validate] resolved: the receiver as it was, or restarted. *)
Ltac unpack_pass :=
  match goal with
  | Hp : frame_passes ?r ?frame = true |- _ =>
      let Hfacts := fresh "Hfacts" in
      let Hstate := fresh "Hstate" in
      pose proof (frame_passes_facts r frame Hp) as Hfacts;
      cbv zeta in Hfacts;
      destruct Hfacts as
        (Hstate & Hnonzero & Hprev & Hthis & Hindex & Hiface & Hterminated);
      destruct Hstate as [Hstate | [Hrestarted Hstate]];
      rewrite Hstate in *; clear Hstate
  end.

(** Case analysis of a transition. *)
Ltac transition_cases Hstep :=
  destruct Hstep as
    [ Hdropped
    | Hguard Hrestart Hfirst
    | Hguard Hrestart Hfirst Hinvalid
    | Hpass Hfirst Hlast
    | c Hpass Hsingle Hcrc
    | c n Hpass Hlast Hwritten
    | c n Hpass Hfirst Hlast Hwritten ];
  try unpack_pass;
  unfold latch, updateTransferTimings;
  repeat match goal with
         | |- context [if isFirstFrame ?f then _ else _] =>
             destruct (isFirstFrame f) eqn:?
         | |- context [if sample_accepted ?a ?b then _ else _] =>
             destruct (sample_accepted a b)
         end;
  simpl in *.

Section Invariants.

Context {cfg : Config}.

Lemma counters_step (r : TransferReceiver) (frame : RxFrame)
      (code : ResultCode) (r' : TransferReceiver) :
  counters_share_lifecycle r -> True -> Transition r frame code r' ->
  counters_share_lifecycle r'.
Proof.
  unfold counters_share_lifecycle. intros Hinv _ Hstep.
  transition_cases Hstep; try lia;
    try (apply written_count in Hwritten); lia.
Qed.

Lemma index_bound_step (r : TransferReceiver) (frame : RxFrame)
      (code : ResultCode) (r' : TransferReceiver) :
  0 <= FRAME_INDEX_MAX ->
  0 <= next_frame_index_ r <= FRAME_INDEX_MAX -> True ->
  Transition r frame code r' ->
  0 <= next_frame_index_ r' <= FRAME_INDEX_MAX.
Proof.
  intros Hmax Hinv _ Hstep.
  transition_cases Hstep; try lia;
    (destruct (Z.eq_dec (getFrameIndex frame) FRAME_INDEX_MAX) as [Heq | Hne];
     [specialize (Hterminated Heq); congruence | lia]).
Qed.

Lemma cursor_bound_step (limit : Z) (r : TransferReceiver) (frame : RxFrame)
      (code : ResultCode) (r' : TransferReceiver) :
  0 <= next_frame_index_ r /\
  buffer_write_pos_ r <= limit * next_frame_index_ r ->
  payload_at_most limit frame ->
  Transition r frame code r' ->
  0 <= next_frame_index_ r' /\
  buffer_write_pos_ r' <= limit * next_frame_index_ r'.
Proof.
  unfold payload_at_most. intros Hinv Hlen Hstep.
  transition_cases Hstep; try lia;
    apply written_count in Hwritten; nia.
Qed.

Lemma crc_step (r : TransferReceiver) (frame : RxFrame)
      (code : ResultCode) (r' : TransferReceiver) :
  0 <= this_transfer_crc_ r < 65536 -> True ->
  Transition r frame code r' ->
  0 <= this_transfer_crc_ r' < 65536.
Proof.
  intros Hinv _ Hstep.
  transition_cases Hstep; try lia;
    try (apply written_crc in Hwritten; simpl; lia);
    try (destruct Hcrc as [-> | [_ ->]]; simpl;
         try apply le16_range; lia).
Qed.


Lemma started_step (r : TransferReceiver) (frame : RxFrame)
      (code : ResultCode) (r' : TransferReceiver) :
  0 <= next_frame_index_ r /\ 0 <= this_transfer_ts_monotonic_ r /\
  (next_frame_index_ r <> 0 -> 0 < this_transfer_ts_monotonic_ r) ->
  first_is_index_zero frame ->
  Transition r frame code r' ->
  0 <= next_frame_index_ r' /\ 0 <= this_transfer_ts_monotonic_ r' /\
  (next_frame_index_ r' <> 0 -> 0 < this_transfer_ts_monotonic_ r').
Proof.
  unfold first_is_index_zero. intros Hinv Hwf Hstep.
  transition_cases Hstep; try lia;
    match goal with
    | Hf : isFirstFrame frame = _ |- _ => rewrite Hf in Hwf
    end;
    symmetry in Hwf;
    first [apply Z.eqb_eq in Hwf | apply Z.eqb_neq in Hwf]; lia.
Qed.

Lemma tid_step (r : TransferReceiver) (frame : RxFrame)
      (code : ResultCode) (r' : TransferReceiver) :
  0 <= BITLEN ->
  is_tid (tid_ r) -> tid_in_space frame ->
  Transition r frame code r' ->
  is_tid (tid_ r').
Proof.
  unfold tid_in_space, is_tid. intros Hbits Hinv Htid Hstep.
  assert (Hpow : 0 < 2 ^ BITLEN) by now apply Z.pow_pos_nonneg.
  transition_cases Hstep; try assumption;
    unfold TransferID.increment; now apply Z.mod_pos_bound.
Qed.

End Invariants.

(** X1: the frame index and the write cursor share a lifecycle.  On a
    receiver where neither is negative and the cursor is 0 whenever the
    index is (a newly constructed one, say), this stays so whatever frames
    and buffers the calls of [addFrame] bring: the two are reset together,
    and the cursor only moves when the index does. *)
Theorem counters_share_lifecycle_kept `{Config} {B} `{TransferBufferBase B}
        (r0 : TransferReceiver)
        (calls : list (RxFrame * TransferBufferAccessor B)) :
  0 <= next_frame_index_ r0 -> 0 <= buffer_write_pos_ r0 ->
  (next_frame_index_ r0 = 0 -> buffer_write_pos_ r0 = 0) ->
  let r := addFrames_any r0 calls in
  0 <= next_frame_index_ r /\ 0 <= buffer_write_pos_ r /\
  (next_frame_index_ r = 0 -> buffer_write_pos_ r = 0).
Proof.
  intros Hindex Hcursor Hzero.
  apply (reachable_invariant counters_share_lifecycle (fun _ => True)).
  - intros r frame code r'. apply counters_step.
  - unfold counters_share_lifecycle. auto.
  - apply frames_satisfy_True.
Qed.

(** An instance of X1: after the first two frames of the three-frame
    transfer on a new receiver. *)
Lemma counters_share_lifecycle_kept_witness :
  0 <= buffer_write_pos_
         (@addFrames_any Demo.config _ (Demo.StaticTransferBuffer 64)
            (@initial Demo.config)
            [(Demo.frame_a0, Demo.empty_tba);
             (Demo.frame_a1, {| tba_held := Some [1; 2; 3];
                                tba_pool := Some [] |})]).
Proof.
  apply (@counters_share_lifecycle_kept Demo.config _
           (Demo.StaticTransferBuffer 64) (@initial Demo.config));
    simpl; lia.
Defined.

(** X2: the expected frame index never passes [FRAME_INDEX_MAX].  A frame
    with that index is taken only as a last frame, which resets the index,
    so from a receiver whose index is within 0 and [FRAME_INDEX_MAX] no
    sequence of calls takes it outside: an unterminated transfer cannot
    grow without bound. *)
Theorem frame_index_bounded `{Config} {B} `{TransferBufferBase B}
        (r0 : TransferReceiver)
        (calls : list (RxFrame * TransferBufferAccessor B)) :
  0 <= next_frame_index_ r0 <= FRAME_INDEX_MAX ->
  0 <= next_frame_index_ (addFrames_any r0 calls) <= FRAME_INDEX_MAX.
Proof.
  intros Hinv.
  apply (reachable_invariant
           (fun r => 0 <= next_frame_index_ r <= FRAME_INDEX_MAX)
           (fun _ => True)).
  - intros r frame code r' Hr _. apply index_bound_step; [lia | exact Hr | exact I].
  - exact Hinv.
  - apply frames_satisfy_True.
Qed.

(** An instance of X2: after the first two frames of the three-frame
    transfer on a new receiver. *)
Lemma frame_index_bounded_witness :
  0 <= next_frame_index_
         (@addFrames_any Demo.config _ (Demo.StaticTransferBuffer 64)
            (@initial Demo.config)
            [(Demo.frame_a0, Demo.empty_tba);
             (Demo.frame_a1, {| tba_held := Some [1; 2; 3];
                                tba_pool := Some [] |})])
  <= 62.
Proof.
  apply (@frame_index_bounded Demo.config _ (Demo.StaticTransferBuffer 64)).
  simpl. lia.
Defined.

(** X3: when no frame carries more than [limit] payload bytes, the write
    cursor never exceeds [limit] bytes per frame taken so far, hence never
    [limit * FRAME_INDEX_MAX]: from a receiver within these bounds no
    sequence of calls leaves them. *)
Theorem write_cursor_bounded `{Config} {B} `{TransferBufferBase B}
        (limit : Z) (r0 : TransferReceiver)
        (calls : list (RxFrame * TransferBufferAccessor B)) :
  0 <= limit ->
  0 <= next_frame_index_ r0 <= FRAME_INDEX_MAX ->
  buffer_write_pos_ r0 <= limit * next_frame_index_ r0 ->
  frames_satisfy (payload_at_most limit) calls ->
  let r := addFrames_any r0 calls in
  buffer_write_pos_ r <= limit * next_frame_index_ r /\
  buffer_write_pos_ r <= limit * FRAME_INDEX_MAX.
Proof.
  intros Hlimit Hindex Hcursor Hcalls r.
  assert (Hpos : 0 <= next_frame_index_ r /\
                 buffer_write_pos_ r <= limit * next_frame_index_ r).
  { apply (reachable_invariant
             (fun r => 0 <= next_frame_index_ r /\
                       buffer_write_pos_ r <= limit * next_frame_index_ r)
             (payload_at_most limit)).
    - intros r1 frame code r'. apply cursor_bound_step.
    - split; [lia | exact Hcursor].
    - exact Hcalls. }
  assert (Hidx : 0 <= next_frame_index_ r <= FRAME_INDEX_MAX).
  { apply (reachable_invariant
             (fun r => 0 <= next_frame_index_ r <= FRAME_INDEX_MAX)
             (fun _ => True)).
    - intros r1 frame code r' Hr _.
      apply index_bound_step; [lia | exact Hr | exact I].
    - exact Hindex.
    - apply frames_satisfy_True. }
  split; [tauto | nia].
Qed.

(** An instance of X3: the same calls, with frames of at most 8 bytes. *)
Lemma write_cursor_bounded_witness :
  buffer_write_pos_
    (@addFrames_any Demo.config _ (Demo.StaticTransferBuffer 64)
       (@initial Demo.config)
       [(Demo.frame_a0, Demo.empty_tba);
        (Demo.frame_a1, {| tba_held := Some [1; 2; 3];
                           tba_pool := Some [] |})])
  <= 8 * 62.
Proof.
  destruct (@write_cursor_bounded Demo.config _
              (Demo.StaticTransferBuffer 64) 8 (@initial Demo.config)
              [(Demo.frame_a0, Demo.empty_tba);
               (Demo.frame_a1, {| tba_held := Some [1; 2; 3];
                                  tba_pool := Some [] |})])
    as [_ Hbound].
  - lia.
  - simpl. lia.
  - simpl. lia.
  - unfold frames_satisfy.
    repeat (apply Forall_cons; [vm_compute; congruence |]).
    apply Forall_nil.
  - exact Hbound.
Defined.

(** X4: the stored CRC stays a 16-bit value: whatever the payload bytes,
    [addFrame] only ever stores 0 or two bytes combined under masks. *)
Theorem crc_stays_16_bit `{Config} {B} `{TransferBufferBase B}
        (r0 : TransferReceiver)
        (calls : list (RxFrame * TransferBufferAccessor B)) :
  0 <= this_transfer_crc_ r0 < 2 ^ 16 ->
  0 <= this_transfer_crc_ (addFrames_any r0 calls) < 2 ^ 16.
Proof.
  change (2 ^ 16) with 65536. intros Hinv.
  apply (reachable_invariant
           (fun r => 0 <= this_transfer_crc_ r < 65536) (fun _ => True)).
  - intros r frame code r'. apply crc_step.
  - exact Hinv.
  - apply frames_satisfy_True.
Qed.

(** An instance of X4: after the first frame of the three-frame transfer. *)
Lemma crc_stays_16_bit_witness :
  0 <= this_transfer_crc_
         (@addFrames_any Demo.config _ (Demo.StaticTransferBuffer 64)
            (@initial Demo.config) [(Demo.frame_a0, Demo.empty_tba)])
  < 2 ^ 16.
Proof.
  apply (@crc_stays_16_bit Demo.config _ (Demo.StaticTransferBuffer 64)).
  simpl. lia.
Defined.



(** X7: when every frame carries a transfer ID of the N-bit space, the
    receiver's expected transfer ID stays in that space: it is only ever
    taken from a frame or incremented with wrap-around. *)
Theorem tid_stays_in_space `{Config} {B} `{TransferBufferBase B}
        (r0 : TransferReceiver)
        (calls : list (RxFrame * TransferBufferAccessor B)) :
  0 <= BITLEN ->
  is_tid (tid_ r0) ->
  frames_satisfy tid_in_space calls ->
  is_tid (tid_ (addFrames_any r0 calls)).
Proof.
  intros Hbits Hinv Hcalls.
  apply (reachable_invariant (fun r => is_tid (tid_ r)) tid_in_space).
  - intros r frame code r'. now apply tid_step.
  - exact Hinv.
  - exact Hcalls.
Qed.

(** An instance of X7: after a continuation frame with transfer ID 5 on a
    new receiver. *)
Lemma tid_stays_in_space_witness :
  @is_tid Demo.config
    (tid_ (@addFrames_any Demo.config _ (Demo.StaticTransferBuffer 64)
             (@initial Demo.config) [(Demo.frame_d1, Demo.empty_tba)])).
Proof.
  apply (@tid_stays_in_space Demo.config _ (Demo.StaticTransferBuffer 64)).
  - simpl. lia.
  - unfold is_tid. simpl. lia.
  - unfold frames_satisfy.
    repeat (apply Forall_cons; [vm_compute; split; congruence |]).
    apply Forall_nil.
Defined.

(** ** What a call does, by its result *)

Section Results.

Context {cfg : Config} {B : Type} {buffer : TransferBufferBase B}.

(** After any transition but a silent drop the receiver is on the frame's
    interface. *)
Lemma transition_iface (r : TransferReceiver) (frame : RxFrame)
      (code : ResultCode) (r' : TransferReceiver) :
  Transition r frame code r' ->
  r' = r \/ iface_index_ r' = getIfaceIndex frame.
Proof.
  intros Hstep. transition_cases Hstep; auto.
Qed.

(** A silent drop is the only transition that may leave the receiver off
    the frame's interface. *)
Lemma transition_iface_or_dropped (r : TransferReceiver) (frame : RxFrame)
      (code : ResultCode) (r' : TransferReceiver) :
  Transition r frame code r' ->
  (r' = r /\
   (timestamp_rejected r frame = true \/
    (need_restart r frame = false /\ validate r frame = false))) \/
  iface_index_ r' = getIfaceIndex frame.
Proof.
  intros Hstep. transition_cases Hstep; auto.
Qed.

Lemma started_reachable (r0 : TransferReceiver)
      (calls : list (RxFrame * TransferBufferAccessor B)) :
  next_frame_index_ r0 = 0 -> 0 <= this_transfer_ts_monotonic_ r0 ->
  frames_satisfy first_is_index_zero calls ->
  let r := addFrames_any r0 calls in
  0 <= next_frame_index_ r /\ 0 <= this_transfer_ts_monotonic_ r /\
  (next_frame_index_ r <> 0 -> 0 < this_transfer_ts_monotonic_ r).
Proof.
  intros Hidle Hthis Hcalls.
  apply (reachable_invariant
           (fun r => 0 <= next_frame_index_ r /\
                     0 <= this_transfer_ts_monotonic_ r /\
                     (next_frame_index_ r <> 0 ->
                      0 < this_transfer_ts_monotonic_ r))
           first_is_index_zero).
  - intros r frame code r'. apply started_step.
  - lia.
  - exact Hcalls.
Qed.

End Results.

(** X6: the assertion at the head of [updateTransferTimings] holds on every
    call.  Start from a receiver between transfers (frame index 0, current
    start not negative) and give it frames whose first-frame flag marks
    frame index 0: a call of [addFrame] that returns COMPLETE or
    SINGLE_FRAME, the calls that run [updateTransferTimings], runs it on a
    receiver whose current transfer start is positive. *)
Theorem updateTransferTimings_assertion_holds
        `{Config} {B} `{TransferBufferBase B}
        (r0 : TransferReceiver)
        (calls : list (RxFrame * TransferBufferAccessor B))
        (frame : RxFrame) (tba : TransferBufferAccessor B) :
  next_frame_index_ r0 = 0 -> 0 <= this_transfer_ts_monotonic_ r0 ->
  frames_satisfy first_is_index_zero calls ->
  first_is_index_zero frame ->
  let r := addFrames_any r0 calls in
  fst (fst (addFrame r frame tba)) <> RESULT_NOT_COMPLETE ->
  exists x,
    0 < this_transfer_ts_monotonic_ x /\
    (snd (fst (addFrame r frame tba))
     = prepareForNextTransfer (updateTransferTimings x) \/
     snd (fst (addFrame r frame tba))
     = set_this_transfer_crc 0
         (prepareForNextTransfer (updateTransferTimings x))).
Proof.
  intros Hidle Hstart Hcalls Hwf r Hcode.
  pose proof (started_reachable r0 calls Hidle Hstart Hcalls) as Hinv.
  cbv zeta in Hinv. fold r in Hinv.
  pose proof (addFrame_transition r frame tba) as Hstep.
  remember (fst (fst (addFrame r frame tba))) as code.
  remember (snd (fst (addFrame r frame tba))) as r'.
  clear Heqcode Heqr'. unfold first_is_index_zero in Hwf.
  destruct Hstep as
    [ Hdropped | Hguard Hrestart Hfirst | Hguard Hrestart Hfirst Hinvalid
    | Hpass Hfirst Hlast | c Hpass Hsingle Hcrc | c n Hpass Hlast Hwritten
    | c n Hpass Hfirst Hlast Hwritten ];
    try congruence; unpack_pass.
  - eexists. split; [| right; reflexivity].
    unfold latch. rewrite Hfirst. simpl. lia.
  - eexists. split; [| right; reflexivity].
    unfold latch. rewrite Hfirst. simpl. lia.
  - eexists. split; [| left; reflexivity].
    unfold latch. rewrite Hfirst. simpl.
    rewrite Hfirst in Hwf. symmetry in Hwf. apply Z.eqb_neq in Hwf. lia.
  - exfalso. simpl in Hindex.
    rewrite Hfirst in Hwf. symmetry in Hwf. apply Z.eqb_neq in Hwf. lia.
Qed.

(** An instance of X6: the closing frame of the three-frame transfer. *)
Lemma updateTransferTimings_assertion_holds_witness :
  exists x,
    0 < this_transfer_ts_monotonic_ x /\
    snd (fst (@addFrames Demo.config _ (Demo.StaticTransferBuffer 64)
                (@initial Demo.config) Demo.empty_tba
                [Demo.frame_a0; Demo.frame_a1; Demo.frame_a2]))
    = @prepareForNextTransfer Demo.config
        (@updateTransferTimings Demo.config x).
Proof.
  destruct (@updateTransferTimings_assertion_holds Demo.config _
              (Demo.StaticTransferBuffer 64) (@initial Demo.config)
              [(Demo.frame_a0, Demo.empty_tba);
               (Demo.frame_a1, {| tba_held := Some [1; 2; 3];
                                  tba_pool := Some [] |})]
              Demo.frame_a2
              {| tba_held := Some [1; 2; 3; 4; 5]; tba_pool := Some [] |})
    as (x & Hpositive & [Hrun | Hrun]).
  - reflexivity.
  - simpl. lia.
  - repeat constructor.
  - reflexivity.
  - vm_compute. congruence.
  - exists x. split; [exact Hpositive |].
    rewrite <- Hrun. vm_compute. reflexivity.
  - exfalso. apply (f_equal this_transfer_crc_) in Hrun.
    vm_compute in Hrun. congruence.
Defined.

(** X8: [addFrame] returns COMPLETE or SINGLE_FRAME only for a last frame,
    SINGLE_FRAME exactly when that frame is also a first frame; it then
    leaves the receiver on the frame's interface, expecting the transfer ID
    after the frame's, with the frame index and the write cursor at 0 and
    the previous transfer's start set to the completed transfer's. *)
Theorem addFrame_completion_effect `{Config} {B} `{TransferBufferBase B}
        (r : TransferReceiver) (frame : RxFrame)
        (tba : TransferBufferAccessor B) :
  0 <= BITLEN ->
  let code := fst (fst (addFrame r frame tba)) in
  let r' := snd (fst (addFrame r frame tba)) in
  code <> RESULT_NOT_COMPLETE ->
  isLastFrame frame = true /\
  (code = RESULT_SINGLE_FRAME <-> isFirstFrame frame = true) /\
  iface_index_ r' = getIfaceIndex frame /\
  tid_ r' = TransferID.increment (getTransferID frame) /\
  next_frame_index_ r' = 0 /\
  buffer_write_pos_ r' = 0 /\
  prev_transfer_ts_monotonic_ r' = this_transfer_ts_monotonic_ r'.
Proof.
  intros Hbits code r' Hcode.
  destruct (addFrame_completed r frame tba Hbits Hcode) as [Hiface Htid].
  fold r' in Hiface, Htid.
  pose proof (addFrame_transition r frame tba) as Hstep.
  fold code r' in Hstep.
  clearbody code r'.
  destruct Hstep as
    [ Hdropped | Hguard Hrestart Hfirst | Hguard Hrestart Hfirst Hinvalid
    | Hpass Hfirst Hlast | c Hpass Hsingle Hcrc | c n Hpass Hlast Hwritten
    | c n Hpass Hfirst Hlast Hwritten ];
    try congruence.
  - repeat split; try assumption; auto;
      unfold updateTransferTimings; destruct (sample_accepted _ _); reflexivity.
  - repeat split; try assumption; try congruence;
      unfold updateTransferTimings; destruct (sample_accepted _ _); reflexivity.
Qed.

(** An instance of X8: the closing frame of the two-frame transfer. *)
Lemma addFrame_completion_effect_witness :
  let r := snd (fst (@addFrames Demo.config _ (Demo.StaticTransferBuffer 64)
                       (@initial Demo.config) Demo.empty_tba
                       [Demo.frame_s; Demo.frame_b0])) in
  tid_ (snd (fst (@addFrame Demo.config _ (Demo.StaticTransferBuffer 64)
                    r Demo.frame_b1
                    {| tba_held := Some [1; 2]; tba_pool := Some [] |})))
  = 2.
Proof.
  intros r.
  destruct (@addFrame_completion_effect Demo.config _
              (Demo.StaticTransferBuffer 64) r Demo.frame_b1
              {| tba_held := Some [1; 2]; tba_pool := Some [] |})
    as (_ & _ & _ & Htid & _).
  - simpl. lia.
  - vm_compute. congruence.
  - rewrite Htid. reflexivity.
Defined.

(** X9: only a completed transfer feeds the interval estimate.  A call of
    [addFrame] that returns NOT_COMPLETE, whether it drops the frame,
    restarts, aborts or takes a frame of an unfinished transfer, leaves the
    adaptive interval and the previous transfer's start as they were. *)
Theorem addFrame_not_complete_keeps_interval
        `{Config} {B} `{TransferBufferBase B}
        (r : TransferReceiver) (frame : RxFrame)
        (tba : TransferBufferAccessor B) :
  fst (fst (addFrame r frame tba)) = RESULT_NOT_COMPLETE ->
  transfer_interval_ (snd (fst (addFrame r frame tba))) = transfer_interval_ r /\
  prev_transfer_ts_monotonic_ (snd (fst (addFrame r frame tba)))
  = prev_transfer_ts_monotonic_ r.
Proof.
  intros Hcode.
  pose proof (addFrame_transition r frame tba) as Hstep.
  remember (fst (fst (addFrame r frame tba))) as code.
  remember (snd (fst (addFrame r frame tba))) as r'.
  clear Heqcode Heqr'.
  destruct Hstep as
    [ Hdropped | Hguard Hrestart Hfirst | Hguard Hrestart Hfirst Hinvalid
    | Hpass Hfirst Hlast | c Hpass Hsingle Hcrc | c n Hpass Hlast Hwritten
    | c n Hpass Hfirst Hlast Hwritten ];
    try congruence; try (split; reflexivity);
    unfold latch, admission_state;
    destruct (need_restart r frame), (isFirstFrame frame); split; reflexivity.
Qed.

(** An instance of X9: the first frame of the two-frame transfer. *)
Lemma addFrame_not_complete_keeps_interval_witness :
  let r := snd (fst (@addFrame Demo.config _ (Demo.StaticTransferBuffer 64)
                       (@initial Demo.config) Demo.frame_s Demo.empty_tba)) in
  transfer_interval_
    (snd (fst (@addFrame Demo.config _ (Demo.StaticTransferBuffer 64)
                 r Demo.frame_b0 Demo.empty_tba)))
  = 500000.
Proof.
  intros r.
  destruct (@addFrame_not_complete_keeps_interval Demo.config _
              (Demo.StaticTransferBuffer 64) r Demo.frame_b0 Demo.empty_tba)
    as [Hinterval _].
  - vm_compute. reflexivity.
  - rewrite Hinterval. reflexivity.
Defined.

(** ** The buffer of a transfer in progress *)

Section Buffers.

Context {cfg : Config} {B : Type} {buffer : TransferBufferBase B}.

Lemma receive_holds_or_resets (r : TransferReceiver) (frame : RxFrame)
      (tba : TransferBufferAccessor B) :
  next_frame_index_ (snd (fst (receive r frame tba))) = 0 \/
  tba_held (snd (receive r frame tba)) <> None.
Proof.
  unfold receive.
  destruct (isFirstFrame frame && isLastFrame frame); [now left |].
  destruct (match tba_access tba with Some b => _ | None => _ end)
    as [[b |] tba1]; [| now left].
  destruct (writePayload _ frame b) as [[ok r1] b1].
  destruct ok; simpl; [| now left].
  destruct (isLastFrame frame); simpl; [now left | right; discriminate].
Qed.

Lemma addFrame_holds_or_resets (r : TransferReceiver) (frame : RxFrame)
      (tba : TransferBufferAccessor B) :
  (next_frame_index_ r <> 0 -> tba_held tba <> None) ->
  next_frame_index_ (snd (fst (addFrame r frame tba))) <> 0 ->
  tba_held (snd (addFrame r frame tba)) <> None.
Proof.
  intros Hinv. unfold addFrame.
  destruct (timestamp_rejected r frame); [exact Hinv |].
  destruct (need_restart r frame).
  - destruct (isFirstFrame frame); simpl negb; cbv iota beta;
      [| simpl; congruence].
    destruct (validate (restart r frame) frame); simpl negb; cbv iota;
      [| simpl; congruence].
    destruct (receive_holds_or_resets (restart r frame) frame (tba_remove tba));
      [congruence | auto].
  - cbv iota beta.
    destruct (validate r frame); simpl negb; cbv iota; [| exact Hinv].
    destruct (receive_holds_or_resets r frame tba); [congruence | auto].
Qed.

Lemma addFrames_holds_or_resets (frames : list RxFrame) :
  forall r (tba : TransferBufferAccessor B),
    (next_frame_index_ r <> 0 -> tba_held tba <> None) ->
    next_frame_index_ (snd (fst (addFrames r tba frames))) <> 0 ->
    tba_held (snd (addFrames r tba frames)) <> None.
Proof.
  induction frames as [| frame frames IH]; intros r tba Hinv; simpl.
  - exact Hinv.
  - pose proof (addFrame_holds_or_resets r frame tba Hinv) as Hstep.
    destruct (addFrame r frame tba) as [[code r1] tba1]. simpl in Hstep.
    specialize (IH r1 tba1 Hstep).
    destruct (addFrames r1 tba1 frames) as [[codes r2] tba2]. exact IH.
Qed.

End Buffers.

(** X11: a transfer in progress always has its buffer.  When frames are
    given one after the other over the same accessor, starting between
    transfers (or with a buffer held), then whenever the expected frame
    index is not 0 the accessor holds a buffer: every path of [addFrame]
    that gives the buffer up also resets the frame index. *)
Theorem transfer_in_progress_holds_buffer `{Config} {B} `{TransferBufferBase B}
        (r0 : TransferReceiver) (tba : TransferBufferAccessor B)
        (frames : list RxFrame) :
  (next_frame_index_ r0 <> 0 -> tba_held tba <> None) ->
  next_frame_index_ (snd (fst (addFrames r0 tba frames))) <> 0 ->
  tba_held (snd (addFrames r0 tba frames)) <> None.
Proof.
  apply addFrames_holds_or_resets.
Qed.

(** An instance of X11: after the first two frames of the three-frame
    transfer. *)
Lemma transfer_in_progress_holds_buffer_witness :
  tba_held
    (snd (@addFrames Demo.config _ (Demo.StaticTransferBuffer 64)
            (@initial Demo.config) Demo.empty_tba
            [Demo.frame_a0; Demo.frame_a1])) <> None.
Proof.
  apply (@transfer_in_progress_holds_buffer Demo.config _
           (Demo.StaticTransferBuffer 64)).
  - simpl. congruence.
  - vm_compute. congruence.
Defined.

(** ** Restart by a newer transfer, and abort *)

Section Restarts.

Context {cfg : Config} {B : Type} {buffer : TransferBufferBase B}.

(** Transfer IDs at forward distance 0 have the same successor. *)
Lemma increment_congruent (a b : Z) :
  0 <= BITLEN ->
  TransferID.forwardDistance a b = 0 ->
  TransferID.increment a = TransferID.increment b.
Proof.
  unfold TransferID.forwardDistance, TransferID.increment.
  intros Hbits Hsame.
  assert (Hpow : 0 < 2 ^ BITLEN) by now apply Z.pow_pos_nonneg.
  apply Z.mod_divide in Hsame; [| lia].
  destruct Hsame as [k Hk].
  replace (b + 1) with (a + 1 + k * 2 ^ BITLEN) by lia.
  now rewrite Z.mod_add by lia.
Qed.

(** A frame of the transfer just before the expected one is a REPEAT. *)
Lemma previous_tid_is_repeat (r : TransferReceiver) (frame : RxFrame) :
  0 < BITLEN ->
  tid_ r = TransferID.increment (getTransferID frame) ->
  getTidRelation r frame = TID_REPEAT.
Proof.
  intros Hbits Htid. apply getTidRelation_repeat.
  rewrite Htid, forwardDistance_back, half_circle by lia.
  pose proof (half_circle_double Hbits) as Hdouble.
  assert (0 < 2 ^ (BITLEN - 1)) by (apply Z.pow_pos_nonneg; lia).
  lia.
Qed.

Lemma restart_result (r : TransferReceiver) (frame : RxFrame)
      (tba : TransferBufferAccessor B) :
  timestamp_rejected r frame = false ->
  need_restart r frame = true ->
  isFirstFrame frame = true ->
  addFrame r frame tba
  = if validate (restart r frame) frame
    then receive (restart r frame) frame (tba_remove tba)
    else (RESULT_NOT_COMPLETE, restart r frame, tba_remove tba).
Proof.
  intros Hguard Hrestart Hfirst. unfold addFrame.
  rewrite Hguard, Hrestart, Hfirst. simpl negb. cbv iota beta.
  destruct (validate (restart r frame) frame); reflexivity.
Qed.

End Restarts.

(** X12: a newer transfer pre-empts the one in progress.  A first frame
    with a FUTURE transfer ID that passes the timestamp guard, on the
    receiver's interface or on any interface once more than twice the
    interval has passed since the current transfer started, restarts the
    receiver: the held buffer is released before the frame is looked at, so
    the outcome is the same whatever buffer was held, and the receiver ends
    up on the frame's interface. *)
Theorem newer_transfer_preempts `{Config} {B} `{TransferBufferBase B}
        (r : TransferReceiver) (frame : RxFrame)
        (tba : TransferBufferAccessor B) :
  timestamp_rejected r frame = false ->
  isFirstFrame frame = true ->
  getTidRelation r frame = TID_FUTURE ->
  getIfaceIndex frame = iface_index_ r \/ iface_timed_out r frame = true ->
  addFrame r frame tba
  = (if validate (restart r frame) frame
     then receive (restart r frame) frame (tba_remove tba)
     else (RESULT_NOT_COMPLETE, restart r frame, tba_remove tba)) /\
  addFrame r frame tba = addFrame r frame (tba_remove tba) /\
  iface_index_ (snd (fst (addFrame r frame tba))) = getIfaceIndex frame.
Proof.
  intros Hguard Hfirst Hfuture Hwhere.
  assert (Hrestart : need_restart r frame = true).
  { unfold need_restart. rewrite Hfirst, Hfuture. simpl.
    destruct Hwhere as [Hsame | Hstale].
    - apply Z.eqb_eq in Hsame. rewrite Hsame. simpl.
      now rewrite orb_true_r.
    - rewrite Hstale. now rewrite !orb_true_r. }
  pose proof (restart_result r frame tba Hguard Hrestart Hfirst) as Hrun.
  pose proof (restart_result r frame (tba_remove tba) Hguard Hrestart Hfirst)
    as Hrun'.
  split; [exact Hrun |]. split; [now rewrite Hrun, Hrun' |].
  destruct (transition_iface_or_dropped _ _ _ _ (addFrame_transition r frame tba))
    as [(_ & [Hrejected | [Hnone _]]) | Hiface]; congruence.
Qed.

(** An instance of X12: mid-transfer on interface 0, the first frame of a
    newer transfer arrives on the same interface. *)
Lemma newer_transfer_preempts_witness :
  let '(_, r, tba) :=
    @addFrame Demo.config _ (Demo.StaticTransferBuffer 64)
      (@initial Demo.config) Demo.frame_a0 Demo.empty_tba in
  iface_index_
    (snd (fst (@addFrame Demo.config _ (Demo.StaticTransferBuffer 64)
                 r Demo.frame_b0 tba))) = 0.
Proof.
  destruct (@addFrame Demo.config _ (Demo.StaticTransferBuffer 64)
              (@initial Demo.config) Demo.frame_a0 Demo.empty_tba)
    as [[code r] tba] eqn:Hrun.
  vm_compute in Hrun. injection Hrun as _ Hr Htba. subst r tba.
  destruct (@newer_transfer_preempts Demo.config _
              (Demo.StaticTransferBuffer 64)
              {| prev_transfer_ts_monotonic_ := 0;
                 this_transfer_ts_monotonic_ := 1000;
                 first_frame_ts_utc_ := 0;
                 transfer_interval_ := 500000;
                 this_transfer_crc_ := 4660;
                 buffer_write_pos_ := 3;
                 tid_ := 0;
                 iface_index_ := 0;
                 next_frame_index_ := 1 |}
              Demo.frame_b0
              {| tba_held := Some [1; 2; 3]; tba_pool := Some [] |})
    as (_ & _ & Hiface).
  - reflexivity.
  - reflexivity.
  - vm_compute. reflexivity.
  - left. reflexivity.
  - rewrite Hiface. reflexivity.
Defined.

(** X13: an aborted transfer is abandoned.  When a frame passes admission
    and validation but its payload cannot be stored, because no buffer can
    be obtained or because [writePayload] fails, [addFrame] returns
    NOT_COMPLETE, no buffer is held any more, the frame index and the write
    cursor are 0 and the expected transfer ID is the one after the frame's.
    Every later frame of the abandoned transfer is then dropped
    without any change, as long as the receiver has not timed out. *)
Theorem aborted_transfer_is_abandoned `{Config} {B} `{TransferBufferBase B}
        (r : TransferReceiver) (frame : RxFrame)
        (tba : TransferBufferAccessor B) :
  0 < BITLEN ->
  on_real_interface frame ->
  frame_passes r frame = true ->
  isFirstFrame frame && isLastFrame frame = false ->
  (acquired_buffer r frame tba = None \/
   exists b, acquired_buffer r frame tba = Some b /\
             fst (fst (writePayload (latch frame (admission_state r frame))
                                    frame b)) = false) ->
  let r' := snd (fst (addFrame r frame tba)) in
  let tba' := snd (addFrame r frame tba) in
  fst (fst (addFrame r frame tba)) = RESULT_NOT_COMPLETE /\
  tba_held tba' = None /\
  next_frame_index_ r' = 0 /\
  buffer_write_pos_ r' = 0 /\
  tid_ r' = TransferID.increment (getTransferID frame) /\
  forall later,
    getTransferID later = getTransferID frame ->
    isTimedOut r' (getMonotonicTimestamp later) = false ->
    addFrame r' later tba' = (RESULT_NOT_COMPLETE, r', tba').
Proof.
  intros Hbits Hreal Hpass Hsingle Hfail r' tba'.
  pose proof (frame_passes_parts r frame Hpass) as (_ & _ & Hvalid).
  pose proof (validate_iface _ _ Hvalid) as Hiface.
  pose proof (validate_same_tid _ _ Hvalid) as Hsame.
  apply getTidRelation_same in Hsame.
  apply increment_congruent in Hsame; [| lia].
  assert (Hrun : exists x t,
             addFrame r frame tba
             = (RESULT_NOT_COMPLETE, prepareForNextTransfer x, t) /\
             tba_held t = None /\
             tid_ x = tid_ (admission_state r frame) /\
             iface_index_ x = iface_index_ (admission_state r frame)).
  { rewrite (addFrame_passes r frame tba Hpass).
    unfold acquired_buffer in Hfail.
    set (r0 := admission_state r frame) in *.
    set (tba0 := if need_restart r frame then tba_remove tba else tba) in *.
    unfold receive. rewrite Hsingle. fold (latch frame r0).
    destruct Hfail as [Hnone | (b & Hsome & Hwrite)].
    - unfold tba_access, tba_create in *.
      destruct (tba_held tba0) as [b |] eqn:Hheld; [discriminate |].
      simpl in Hnone. rewrite Hnone.
      eexists _, _. split; [reflexivity |].
      split; [reflexivity |].
      unfold latch. destruct (isFirstFrame frame); split; reflexivity.
    - assert (Hget : exists t,
                 (match tba_access tba0 with
                  | Some b0 => (Some b0, tba0)
                  | None => tba_create tba0
                  end) = (Some b, t)).
      { unfold tba_access, tba_create in *.
        destruct (tba_held tba0) as [b0 |].
        - injection Hsome as ->. eauto.
        - simpl in Hsome. rewrite Hsome. eauto. }
      destruct Hget as [t Hget]. rewrite Hget.
      pose proof (writePayload_index (latch frame r0) frame b) as Hidx.
      assert (Hfields :
                tid_ (snd (fst (writePayload (latch frame r0) frame b)))
                = tid_ r0 /\
                iface_index_ (snd (fst (writePayload (latch frame r0) frame b)))
                = iface_index_ r0).
      { unfold writePayload, latch.
        destruct (isFirstFrame frame);
          [destruct (getPayloadLen frame <? CRC_LEN); [split; reflexivity |] |];
          destruct (write _ _ _) as [res b1]; simpl;
          destruct (res =? _); split; reflexivity. }
      destruct (writePayload (latch frame r0) frame b) as [[ok x] b1].
      simpl in Hwrite, Hfields. subst ok. simpl negb. cbv iota.
      eexists _, _. split; [reflexivity |].
      split; [reflexivity | exact Hfields]. }
  destruct Hrun as (x & t & Hrun & Hheld & Htid & Hifacex).
  subst r' tba'. rewrite Hrun. simpl fst. simpl snd.
  assert (Hnext : tid_ (prepareForNextTransfer x)
                  = TransferID.increment (getTransferID frame)).
  { simpl. now rewrite Htid, Hsame. }
  repeat split; try assumption; try reflexivity.
  intros later Hlater Htimeout.
  apply addFrame_repeat_dropped.
  - unfold isInitialized. simpl. rewrite Hifacex, Hiface.
    now apply negb_true_iff, Z.eqb_neq.
  - exact Htimeout.
  - apply previous_tid_is_repeat; [exact Hbits |]. now rewrite Hnext, Hlater.
Qed.

(** An instance of X13: the second frame of the three-frame transfer does
    not fit a 4-byte buffer; the third frame is then ignored. *)
Lemma aborted_transfer_is_abandoned_witness :
  let '(_, r, tba) :=
    @addFrame Demo.config _ (Demo.StaticTransferBuffer 4)
      (@initial Demo.config) Demo.frame_a0 Demo.empty_tba in
  let run :=
    @addFrame Demo.config _ (Demo.StaticTransferBuffer 4)
      r Demo.frame_a1 tba in
  @addFrame Demo.config _ (Demo.StaticTransferBuffer 4)
    (snd (fst run)) Demo.frame_a2 (snd run)
  = (RESULT_NOT_COMPLETE, snd (fst run), snd run).
Proof.
  destruct (@addFrame Demo.config _ (Demo.StaticTransferBuffer 4)
              (@initial Demo.config) Demo.frame_a0 Demo.empty_tba)
    as [[code r] tba] eqn:Hrun.
  vm_compute in Hrun. injection Hrun as _ Hr Htba. subst r tba.
  intros run.
  destruct (@aborted_transfer_is_abandoned Demo.config _
              (Demo.StaticTransferBuffer 4)
              {| prev_transfer_ts_monotonic_ := 0;
                 this_transfer_ts_monotonic_ := 1000;
                 first_frame_ts_utc_ := 0;
                 transfer_interval_ := 500000;
                 this_transfer_crc_ := 4660;
                 buffer_write_pos_ := 3;
                 tid_ := 0;
                 iface_index_ := 0;
                 next_frame_index_ := 1 |}
              Demo.frame_a1
              {| tba_held := Some [1; 2; 3]; tba_pool := Some [] |})
    as (_ & _ & _ & _ & _ & Hlater).
  - simpl. lia.
  - unfold on_real_interface. simpl. lia.
  - vm_compute. reflexivity.
  - reflexivity.
  - right. exists [1; 2; 3]. split; vm_compute; reflexivity.
  - apply Hlater; vm_compute; reflexivity.
Defined.

(** ** Timeouts *)

(** X14: the receiver timeout is monotone in time.  No receiver is timed
    out at or before the start of its current transfer, and one that is
    timed out at some time is timed out at every later time. *)
Theorem isTimedOut_monotone `{Config}
        (r : TransferReceiver) (now later : Z) :
  U.is_u64 (this_transfer_ts_monotonic_ r) ->
  U.is_u64 now -> U.is_u64 later ->
  now <= later ->
  (now <= this_transfer_ts_monotonic_ r -> isTimedOut r now = false) /\
  (isTimedOut r now = true -> isTimedOut r later = true).
Proof.
  intros Hthis Hnow Hlater Hle. unfold isTimedOut. split.
  - intros Hearly. apply Z.leb_le in Hearly. now rewrite Hearly.
  - destruct (Z.leb_spec now (this_transfer_ts_monotonic_ r)) as [| Hlt];
      [discriminate |].
    destruct (Z.leb_spec later (this_transfer_ts_monotonic_ r)) as [| _];
      [lia |].
    rewrite !sub64_exact by (try assumption; lia).
    rewrite !Z.gtb_ltb, !Z.ltb_lt. lia.
Qed.

(** An instance of X14: the receiver left by the late two-frame transfer,
    at the time of its last frame and one second later. *)
Lemma isTimedOut_monotone_witness :
  let r := snd (fst (@addFrames Demo.config _ (Demo.StaticTransferBuffer 64)
                       (@initial Demo.config) Demo.empty_tba
                       [Demo.frame_s; Demo.frame_b0; Demo.frame_b1])) in
  @isTimedOut Demo.config r 9402000 = true.
Proof.
  intros r.
  assert (Hu64 : forall x, 0 <= x < 2 ^ 32 -> U.is_u64 x)
    by (unfold U.is_u64; intros x Hx; lia).
  destruct (@isTimedOut_monotone Demo.config r 8402000 9402000)
    as [_ Hlater]; try (apply Hu64; vm_compute; split; congruence).
  - lia.
  - apply Hlater. vm_compute. reflexivity.
Defined.



(** ** The circular order of transfer IDs *)

(** X16: seen from the other side, FUTURE is REPEAT.  For transfer IDs
    [a] and [b] of the N-bit space: if [b] is FUTURE for a receiver
    expecting [a], then [a] is REPEAT for a receiver expecting [b]; if [b]
    is REPEAT for [a], then [a] is FUTURE for [b], except at exactly half
    the circle, where each is REPEAT for the other. *)
Theorem getTidRelation_opposite `{Config}
        (ra rb : TransferReceiver) (fa fb : RxFrame) :
  0 < BITLEN ->
  is_tid (tid_ ra) -> is_tid (tid_ rb) ->
  getTransferID fa = tid_ ra -> getTransferID fb = tid_ rb ->
  (getTidRelation ra fb = TID_FUTURE -> getTidRelation rb fa = TID_REPEAT) /\
  (getTidRelation ra fb = TID_REPEAT ->
   if TransferID.forwardDistance (tid_ ra) (tid_ rb) =? 2 ^ (BITLEN - 1)
   then getTidRelation rb fa = TID_REPEAT
   else getTidRelation rb fa = TID_FUTURE) /\
  (getTidRelation ra fb = TID_SAME -> getTidRelation rb fa = TID_SAME).
Proof.
  intros Hbits Ha Hb Hfa Hfb.
  pose proof (half_circle Hbits) as Hhalf.
  pose proof (half_circle_double Hbits) as Hdouble.
  assert (Hpos : 0 < 2 ^ (BITLEN - 1)) by (apply Z.pow_pos_nonneg; lia).
  unfold is_tid in Ha, Hb.
  assert (Hback : TransferID.forwardDistance (tid_ rb) (tid_ ra)
                  = if tid_ ra =? tid_ rb then 0
                    else 2 ^ BITLEN
                         - TransferID.forwardDistance (tid_ ra) (tid_ rb)).
  { unfold TransferID.forwardDistance.
    destruct (Z.eqb_spec (tid_ ra) (tid_ rb)) as [-> | Hne].
    - rewrite Z.sub_diag. apply Z.mod_0_l. lia.
    - destruct (Z.lt_ge_cases (tid_ ra) (tid_ rb)).
      + rewrite (Z.mod_small (tid_ rb - tid_ ra)) by lia.
        replace (tid_ ra - tid_ rb)
          with (tid_ ra - tid_ rb + 2 ^ BITLEN + (-1) * 2 ^ BITLEN) by lia.
        rewrite Z.mod_add, Z.mod_small by lia. lia.
      + rewrite (Z.mod_small (tid_ ra - tid_ rb)) by lia.
        replace (tid_ rb - tid_ ra)
          with (tid_ rb - tid_ ra + 2 ^ BITLEN + (-1) * 2 ^ BITLEN) by lia.
        rewrite Z.mod_add, Z.mod_small by lia. lia. }
  assert (Hrange : 0 <= TransferID.forwardDistance (tid_ ra) (tid_ rb)
                   < 2 ^ BITLEN).
  { destruct (forwardDistance_range (tid_ ra) (tid_ rb)); [assumption | lia]. }
  assert (Hrange' : 0 <= TransferID.forwardDistance (tid_ rb) (tid_ ra)
                    < 2 ^ BITLEN).
  { destruct (forwardDistance_range (tid_ rb) (tid_ ra)); [assumption | lia]. }
  assert (Hzero : tid_ ra = tid_ rb ->
                  TransferID.forwardDistance (tid_ ra) (tid_ rb) = 0).
  { intros ->. unfold TransferID.forwardDistance.
    rewrite Z.sub_diag. apply Z.mod_0_l. lia. }
  revert Hback.
  destruct (Z.eqb_spec (tid_ ra) (tid_ rb)) as [Heq | Hne]; intros Hback;
    [specialize (Hzero Heq) | clear Hzero].
  - split; [| split].
    + rewrite getTidRelation_future, Hfb. lia.
    + rewrite getTidRelation_repeat, Hfb. lia.
    + rewrite !getTidRelation_same, Hfa, Hfb, Hback. lia.
  - split; [| split].
    + rewrite getTidRelation_future, getTidRelation_repeat.
      rewrite Hfa, Hfb, Hhalf, Hback. lia.
    + rewrite getTidRelation_repeat, Hfb, Hhalf. intros [Hnz Hge].
      destruct (Z.eqb_spec (TransferID.forwardDistance (tid_ ra) (tid_ rb))
                           (2 ^ (BITLEN - 1))).
      * rewrite getTidRelation_repeat, Hfa, Hhalf, Hback. lia.
      * rewrite getTidRelation_future, Hfa, Hhalf, Hback. lia.
    + rewrite !getTidRelation_same, Hfa, Hfb. lia.
Qed.

(** An instance of X16: 5 is FUTURE for 2, so 2 is REPEAT for 5. *)
Lemma getTidRelation_opposite_witness :
  @getTidRelation Demo.config (set_tid 5 (@initial Demo.config))
    (Demo.mk_frame 0 2 0 true true 1 []) = TID_REPEAT.
Proof.
  assert (Hbits : 0 < @BITLEN Demo.config) by (simpl; lia).
  assert (H2 : @is_tid Demo.config 2) by (unfold is_tid; simpl; lia).
  assert (H5 : @is_tid Demo.config 5) by (unfold is_tid; simpl; lia).
  destruct (@getTidRelation_opposite Demo.config
              (set_tid 2 (@initial Demo.config))
              (set_tid 5 (@initial Demo.config))
              (Demo.mk_frame 0 2 0 true true 1 [])
              Demo.frame_d1 Hbits H2 H5 eq_refl eq_refl) as [Hopposite _].
  apply Hopposite. vm_compute. reflexivity.
Defined.

(** X17: the transfer after the expected one is FUTURE as soon as the
    transfer ID has two bits; with a 1-bit transfer ID it falls on the
    half circle and is REPEAT, so that the FUTURE restart triggers can
    never fire. *)
Theorem getTidRelation_of_next `{Config}
        (r : TransferReceiver) (frame : RxFrame) :
  1 <= BITLEN ->
  getTransferID frame = TransferID.increment (tid_ r) ->
  getTidRelation r frame
  = if BITLEN =? 1 then TID_REPEAT else TID_FUTURE.
Proof.
  intros Hbits Hnext.
  assert (Hone : TransferID.forwardDistance (tid_ r) (getTransferID frame) = 1).
  { rewrite Hnext. unfold TransferID.forwardDistance, TransferID.increment.
    assert (Hpow : 2 <= 2 ^ BITLEN).
    { change 2 with (2 ^ 1) at 1. apply Z.pow_le_mono_r; lia. }
    rewrite Zminus_mod_idemp_l.
    replace (tid_ r + 1 - tid_ r) with 1 by lia.
    apply Z.mod_small. lia. }
  destruct (Z.eqb_spec BITLEN 1) as [Heq | Hne].
  - apply getTidRelation_repeat. rewrite Hone, half_circle by lia.
    rewrite Heq. simpl. lia.
  - apply getTidRelation_future. rewrite Hone, half_circle by lia.
    assert (2 ^ 1 <= 2 ^ (BITLEN - 1)) by (apply Z.pow_le_mono_r; lia).
    simpl in *. lia.
Qed.

(** An instance of X17: transfer ID 1 for a receiver expecting 0. *)
Lemma getTidRelation_of_next_witness :
  @getTidRelation Demo.config (@initial Demo.config) Demo.frame_b0
  = TID_FUTURE.
Proof.
  rewrite (@getTidRelation_of_next Demo.config (@initial Demo.config)
             Demo.frame_b0).
  - reflexivity.
  - simpl. lia.
  - reflexivity.
Defined.

(** ** The interval filter *)

(** X18: an accepted sample pulls the interval towards it and never past
    it.  With the interval within its bounds, the new estimate lies
    between the old estimate and the clamped sample; it is strictly below
    the old estimate when the sample is, but it stays where it is when the
    sample is above the old estimate by less than 8, the integer division
    rounding down. *)
Theorem updateTransferTimings_moves_toward_sample `{Config}
        (r : TransferReceiver) :
  intervals_ordered -> interval_in_bounds r ->
  sample_accepted (prev_transfer_ts_monotonic_ r)
    (set_prev_transfer_ts_monotonic (this_transfer_ts_monotonic_ r) r) = true ->
  let sample :=
    clamp (U.sub64 (this_transfer_ts_monotonic_ r)
                   (prev_transfer_ts_monotonic_ r)) in
  let old := transfer_interval_ r in
  let new := transfer_interval_ (updateTransferTimings r) in
  (sample <= old -> sample <= new <= old /\ (sample < old -> new < old)) /\
  (old <= sample -> old <= new <= sample /\ (sample - old < 8 -> new = old)).
Proof.
  intros Hcfg Hin Haccepted sample old new.
  assert (Hnew : new = (old * 7 + sample) / 8).
  { subst new old sample.
    rewrite (updateTransferTimings_interval Hcfg r Hin), Haccepted.
    reflexivity. }
  rewrite Hnew. clear Hnew new.
  pose proof (Z.div_mod (old * 7 + sample) 8 ltac:(lia)) as Hdiv.
  pose proof (Z.mod_pos_bound (old * 7 + sample) 8 ltac:(lia)) as Hmod.
  split; intros Hle; split; try lia; intros Hstrict; lia.
Qed.

(** An instance of X18: the two-frame transfer starts 1 ms after the
    single-frame one; the estimate moves down from 500 ms. *)
Lemma updateTransferTimings_moves_toward_sample_witness :
  let r := snd (fst (@addFrames Demo.config _ (Demo.StaticTransferBuffer 64)
                       (@initial Demo.config) Demo.empty_tba
                       [Demo.frame_s; Demo.frame_b0])) in
  transfer_interval_ (@updateTransferTimings Demo.config r) < 500000.
Proof.
  intros r.
  destruct (@updateTransferTimings_moves_toward_sample Demo.config r)
    as [Hdown _].
  - unfold intervals_ordered. simpl. lia.
  - vm_compute. split; congruence.
  - vm_compute. reflexivity.
  - destruct Hdown as [_ Hstrict]; [vm_compute; congruence |].
    apply Hstrict. vm_compute. reflexivity.
Defined.

(** ** Rejection without effect *)

Section Rejection.

Context {cfg : Config}.

Lemma validate_false_iff (r : TransferReceiver) (frame : RxFrame) :
  validate r frame = false <->
  iface_index_ r <> getIfaceIndex frame \/
  (isFirstFrame frame = true /\ isLastFrame frame = false /\
   getPayloadLen frame < CRC_LEN) \/
  (getFrameIndex frame = FRAME_INDEX_MAX /\ isLastFrame frame = false) \/
  getFrameIndex frame <> next_frame_index_ r \/
  getTidRelation r frame <> TID_SAME.
Proof.
  unfold validate.
  destruct (Z.eqb_spec (iface_index_ r) (getIfaceIndex frame));
    simpl; [| tauto].
  destruct (isFirstFrame frame), (isLastFrame frame); simpl;
    destruct (Z.ltb_spec (getPayloadLen frame) CRC_LEN);
    destruct (Z.eqb_spec (getFrameIndex frame) FRAME_INDEX_MAX);
    destruct (Z.eqb_spec (getFrameIndex frame) (next_frame_index_ r));
    destruct (getTidRelation r frame); simpl;
    intuition (try congruence; try lia).
Qed.

End Rejection.

(** X19: rejection is silent.  When no restart trigger fires, a frame from
    another interface, a first frame of a longer transfer without room for
    the CRC, a frame at [FRAME_INDEX_MAX] that does not close the transfer,
    a frame out of sequence, or a frame whose transfer ID is not the
    expected one is dropped with NOT_COMPLETE, and neither the receiver nor
    the buffer accessor changes. *)
Theorem addFrame_rejection_is_silent `{Config} {B} `{TransferBufferBase B}
        (r : TransferReceiver) (frame : RxFrame)
        (tba : TransferBufferAccessor B) :
  need_restart r frame = false ->
  iface_index_ r <> getIfaceIndex frame \/
  (isFirstFrame frame = true /\ isLastFrame frame = false /\
   getPayloadLen frame < CRC_LEN) \/
  (getFrameIndex frame = FRAME_INDEX_MAX /\ isLastFrame frame = false) \/
  getFrameIndex frame <> next_frame_index_ r \/
  getTidRelation r frame <> TID_SAME ->
  addFrame r frame tba = (RESULT_NOT_COMPLETE, r, tba).
Proof.
  intros Hrestart Hwhy.
  apply addFrame_no_restart_invalid; [exact Hrestart |].
  now apply validate_false_iff.
Qed.

(** An instance of X19: the third frame of the three-frame transfer, given
    right after the first. *)
Lemma addFrame_rejection_is_silent_witness :
  let '(_, r, tba) :=
    @addFrame Demo.config _ (Demo.StaticTransferBuffer 64)
      (@initial Demo.config) Demo.frame_a0 Demo.empty_tba in
  @addFrame Demo.config _ (Demo.StaticTransferBuffer 64) r Demo.frame_a2 tba
  = (RESULT_NOT_COMPLETE, r, tba).
Proof.
  destruct (@addFrame Demo.config _ (Demo.StaticTransferBuffer 64)
              (@initial Demo.config) Demo.frame_a0 Demo.empty_tba)
    as [[code r] tba] eqn:Hrun.
  vm_compute in Hrun. injection Hrun as _ Hr Htba. subst r tba.
  apply (@addFrame_rejection_is_silent Demo.config _
           (Demo.StaticTransferBuffer 64)).
  - vm_compute. reflexivity.
  - right; right; right; left. vm_compute. congruence.
Defined.

(** ** The CRC header *)

(** X20: the CRC is read back byte by byte.  For a payload that starts
    with the bytes [lo] and [hi], the value [writePayload] stores is
    [lo + 256 * hi]: its low byte is [lo] and its high byte is [hi],
    whatever follows in the payload. *)
Theorem crc_of_payload_bytes (lo hi : Z) (rest : list Z) :
  0 <= lo < 256 -> 0 <= hi < 256 ->
  crc_of_payload (lo :: hi :: rest) = lo + 256 * hi /\
  crc_of_payload (lo :: hi :: rest) mod 256 = lo /\
  crc_of_payload (lo :: hi :: rest) / 256 = hi.
Proof.
  intros Hlo Hhi.
  rewrite crc_of_payload_le16. unfold le16. simpl nth.
  rewrite !Z.mod_small by lia.
  split; [reflexivity |]. split.
  - symmetry. apply (Z.mod_unique _ _ hi); lia.
  - symmetry. apply (Z.div_unique _ _ _ lo); lia.
Qed.

(** An instance of X20: the CRC header [0x34 0x12]. *)
Lemma crc_of_payload_bytes_witness :
  crc_of_payload (getPayload Demo.frame_a0) = 4660.
Proof.
  destruct (crc_of_payload_bytes 52 18 [1; 2; 3]) as [Hvalue _];
    [lia | lia |].
  exact Hvalue.
Defined.

(** ** Validation after a restart *)

(** X10: after a restart the interface and transfer-ID checks of [validate]
    cannot fail, the receiver having just taken both from the frame.  The
    frame is then accepted exactly when its frame index is 0, it has room
    for the CRC if it is the first of several frames, and it does not sit
    at [FRAME_INDEX_MAX] without closing the transfer. *)
Theorem validate_after_restart `{Config}
        (r : TransferReceiver) (frame : RxFrame) :
  validate (restart r frame) frame = true <->
  getFrameIndex frame = 0 /\
  (isFirstFrame frame = true -> isLastFrame frame = false ->
   CRC_LEN <= getPayloadLen frame) /\
  (FRAME_INDEX_MAX = 0 -> isLastFrame frame = true).
Proof.
  assert (Hsame : getTidRelation (restart r frame) frame = TID_SAME).
  { apply getTidRelation_same. simpl. unfold TransferID.forwardDistance.
    rewrite Z.sub_diag. apply Zmod_0_l. }
  pose proof (validate_false_iff (restart r frame) frame) as Hfalse.
  simpl in Hfalse.
  destruct (validate (restart r frame) frame).
  - split; [intros _ | reflexivity].
    assert (Hnot : ~ (getIfaceIndex frame <> getIfaceIndex frame \/
                      (isFirstFrame frame = true /\
                       isLastFrame frame = false /\
                       getPayloadLen frame < CRC_LEN) \/
                      (getFrameIndex frame = FRAME_INDEX_MAX /\
                       isLastFrame frame = false) \/
                      getFrameIndex frame <> 0 \/
                      getTidRelation (restart r frame) frame <> TID_SAME))
      by (intros Hwhy; apply Hfalse in Hwhy; discriminate).
    split; [| split].
    + destruct (Z.eq_dec (getFrameIndex frame) 0); [assumption | tauto].
    + intros Hfirst Hlast.
      destruct (Z.lt_ge_cases (getPayloadLen frame) CRC_LEN); [tauto | lia].
    + intros Hmax. destruct (isLastFrame frame) eqn:Hlast; [reflexivity |].
      destruct (Z.eq_dec (getFrameIndex frame) 0) as [Hzero |]; [| tauto].
      exfalso. apply Hnot. right; right; left. split; congruence.
  - split; [discriminate |].
    intros (Hzero & Hcrc & Hmax).
    destruct Hfalse as [Hwhy _]. specialize (Hwhy eq_refl).
    destruct Hwhy as [Hwhy | [(Hfirst & Hlast & Hshort) | [[Hidx Hlast] | [Hwhy | Hwhy]]]];
      try congruence.
    + specialize (Hcrc Hfirst Hlast). lia.
    + rewrite Hzero in Hidx. symmetry in Hidx. specialize (Hmax Hidx).
      congruence.
Qed.

(** An instance of X10: the first frame of the three-frame transfer. *)
Lemma validate_after_restart_witness :
  @validate Demo.config
    (@restart (@initial Demo.config) Demo.frame_a0) Demo.frame_a0 = true.
Proof.
  apply (@validate_after_restart Demo.config (@initial Demo.config)
           Demo.frame_a0).
  split; [reflexivity |]. split.
  - intros _ _. vm_compute. congruence.
  - simpl. lia.
Defined.
